(** * rpt_to_excel: the fixed-width report parser

    A shallow embedding of [parse_rpt_file] from [rpt_to_excel.py] and
    the properties of its layout detection and row extraction.

    Text is a list of characters.  A character is an [ascii], that is a
    code point below 256; the character classes of Python's [re] and of
    [str.strip] are the ones Python uses on that range.  The parser is
    modelled from the decoded file content on: reading the file is the
    caller's side.  Its last step, the call of [pd.DataFrame], is the
    one place where it can raise: [DataFrame] below stands for that
    call. *)

From Stdlib Require Import Ascii String Numbers.DecimalString.
From Stdlib Require Import List Arith Lia Bool Sorted.
Import ListNotations.

Local Open Scope nat_scope.
Local Open Scope list_scope.

(** Text as the parser sees it. *)
Definition str : Type := list ascii.

Definition txt (s : string) : str := list_ascii_of_string s.

Definition newline : ascii := ascii_of_nat 10.
Definition tab : ascii := ascii_of_nat 9.
Definition space : ascii := ascii_of_nat 32.
Definition dash : ascii := ascii_of_nat 45.

(** ** Python's string operations *)
Module Py.

(** [str.isspace] on one character, which is also [\s] of [re]:
    TAB, LF, VT, FF, CR, FS, GS, RS, US, SPACE, NEL and NBSP. *)
Definition isspace (c : ascii) : bool :=
  let n := nat_of_ascii c in
  ((9 <=? n) && (n <=? 13)) || ((28 <=? n) && (n <=? 32))
  || (n =? 133) || (n =? 160).

(** [\d] of [re]: the decimal digits. *)
Definition isdecimal (c : ascii) : bool :=
  let n := nat_of_ascii c in (48 <=? n) && (n <=? 57).

Fixpoint dropwhile (p : ascii -> bool) (s : str) : str :=
  match s with
  | [] => []
  | c :: t => if p c then dropwhile p t else s
  end.

Definition lstrip (s : str) : str := dropwhile isspace s.
Definition rstrip (s : str) : str := rev (dropwhile isspace (rev s)).

(** [s.strip()] *)
Definition strip (s : str) : str := rstrip (lstrip s).

(** [s[a:b]] for offsets that are not negative; an offset past the end
    is clipped and [b < a] gives the empty text. *)
Definition slice (a b : nat) (s : str) : str := firstn (b - a) (skipn a s).

(** [s[a:]] *)
Definition slice_from (a : nat) (s : str) : str := skipn a s.

(** [s[:b]] *)
Definition slice_to (b : nat) (s : str) : str := firstn b s.

(** [s.split(sep)] for a separator of one character. *)
Fixpoint split (sep : ascii) (s : str) : list str :=
  match s with
  | [] => [[]]
  | c :: t =>
      if Ascii.eqb c sep then [] :: split sep t
      else match split sep t with
           | h :: r => (c :: h) :: r
           | [] => [[c]]
           end
  end.

(** [s.replace(a, b)] for single characters. *)
Definition replace (a b : ascii) (s : str) : str :=
  map (fun c => if Ascii.eqb c a then b else c) s.

Fixpoint startswith (p s : str) : bool :=
  match p, s with
  | [], _ => true
  | _ :: _, [] => false
  | a :: p', b :: s' => Ascii.eqb a b && startswith p' s'
  end.

(** [needle in hay] *)
Fixpoint contains (needle hay : str) : bool :=
  startswith needle hay ||
  match hay with
  | [] => false
  | _ :: t => contains needle t
  end.

Fixpoint eqb (a b : str) : bool :=
  match a, b with
  | [], [] => true
  | x :: a', y :: b' => Ascii.eqb x y && eqb a' b'
  | _, _ => false
  end.

(** [not s] on text: the empty text is false. *)
Definition is_empty (s : str) : bool :=
  match s with [] => true | _ :: _ => false end.

(** [str(n)] *)
Definition of_nat (n : nat) : str :=
  txt (NilEmpty.string_of_uint (Nat.to_uint n)).

(** [str.lower] on one character: the capitals A to Z and the accented
    capitals from 192 to 222, the multiplication sign 215 apart, move 32
    places up. *)
Definition lower_char (c : ascii) : ascii :=
  let n := nat_of_ascii c in
  if ((65 <=? n) && (n <=? 90))
     || ((192 <=? n) && (n <=? 222) && negb (n =? 215))
  then ascii_of_nat (n + 32)
  else c.

(** [s.lower()] *)
Definition lower (s : str) : str := map lower_char s.

(** [s.endswith(suffix)] *)
Definition endswith (suffix s : str) : bool :=
  eqb (skipn (length s - length suffix) s) suffix.

End Py.

(** ** A backtracking matcher for the patterns of the parser

    [ends s r i] lists, in the order in which Python's backtracking
    matcher tries them, the offsets at which a match of [r] that starts
    at offset [i] of [s] can end.  The match [re] reports is the first
    one. *)
Module Re.

Inductive regex : Type :=
| Eps
| Chr (p : ascii -> bool)
| Bol
| Eol
| Seq (a b : regex)
| Alt (a b : regex)
| Star (a : regex).

(** [a+], [a?] and a literal text. *)
Definition Plus (a : regex) : regex := Seq a (Star a).
Definition Opt (a : regex) : regex := Alt a Eps.
Definition Lit (s : str) : regex :=
  fold_right (fun c r => Seq (Chr (Ascii.eqb c)) r) Eps s.

(** [^] and [$] under [re.MULTILINE]. *)
Definition at_beginning_line (s : str) (i : nat) : bool :=
  match i with
  | 0 => true
  | S k => match nth_error s k with
           | Some c => Ascii.eqb c newline
           | None => false
           end
  end.

Definition at_end_line (s : str) (i : nat) : bool :=
  match nth_error s i with
  | Some c => Ascii.eqb c newline
  | None => i =? length s
  end.

(** The greedy loop of [a*]: another round of the body first, leaving
    the loop last.  A round that consumes nothing is not repeated.
    Every round moves right, so [S (length s - i)] rounds are enough. *)
Fixpoint star_ends (body : nat -> list nat) (fuel i : nat) : list nat :=
  match fuel with
  | 0 => []
  | S f =>
      flat_map (fun j => if i <? j then star_ends body f j else [])
               (body i) ++ [i]
  end.

Fixpoint ends (s : str) (r : regex) (i : nat) {struct r} : list nat :=
  match r with
  | Eps => [i]
  | Chr p =>
      match nth_error s i with
      | Some c => if p c then [S i] else []
      | None => []
      end
  | Bol => if at_beginning_line s i then [i] else []
  | Eol => if at_end_line s i then [i] else []
  | Seq a b => flat_map (ends s b) (ends s a i)
  | Alt a b => ends s a i ++ ends s b i
  | Star a => star_ends (ends s a) (S (length s - i)) i
  end.

(** [re.search]: the start offsets are tried from left to right, up to
    and including the end of the text. *)
Fixpoint search_from (s : str) (r : regex) (n start : nat)
  : option (nat * nat) :=
  match n with
  | 0 => None
  | S n' =>
      match ends s r start with
      | e :: _ => Some (start, e)
      | [] => search_from s r n' (S start)
      end
  end.

Definition search (r : regex) (s : str) : option (nat * nat) :=
  search_from s r (S (length s)) 0.

(** [re.finditer]: the matches found from left to right, each search
    starting where the previous match ended (one character further
    after an empty match). *)
Fixpoint finditer_from (s : str) (r : regex) (fuel pos : nat)
  : list (nat * nat) :=
  match fuel with
  | 0 => []
  | S f =>
      match search_from s r (S (length s) - pos) pos with
      | None => []
      | Some (a, e) =>
          (a, e) :: finditer_from s r f (if a <? e then e else S e)
      end
  end.

Definition finditer (r : regex) (s : str) : list (nat * nat) :=
  finditer_from s r (S (length s)) 0.

(** What the matcher computes, stated without an order of trial:
    [Match s r i j] when [r] matches the characters of [s] from offset
    [i] up to offset [j]. *)
Inductive Match (s : str) : regex -> nat -> nat -> Prop :=
| MEps i : Match s Eps i i
| MChr p i c :
    nth_error s i = Some c -> p c = true -> Match s (Chr p) i (S i)
| MBol i : at_beginning_line s i = true -> Match s Bol i i
| MEol i : at_end_line s i = true -> Match s Eol i i
| MSeq a b i k j :
    Match s a i k -> Match s b k j -> Match s (Seq a b) i j
| MAltL a b i j : Match s a i j -> Match s (Alt a b) i j
| MAltR a b i j : Match s b i j -> Match s (Alt a b) i j
| MStarNil a i : Match s (Star a) i i
| MStarCons a i k j :
    Match s a i k -> i < k -> Match s (Star a) k j ->
    Match s (Star a) i j.

(** The character at offset [k] exists and satisfies [p]. *)
Definition at_ (p : ascii -> bool) (s : str) (k : nat) : bool :=
  match nth_error s k with
  | Some c => p c
  | None => false
  end.

(** Every character class of [r] is within [P]. *)
Fixpoint classes_within (P : ascii -> bool) (r : regex) : Prop :=
  match r with
  | Chr p => forall c, p c = true -> P c = true
  | Seq a b | Alt a b => classes_within P a /\ classes_within P b
  | Star a => classes_within P a
  | Eps | Bol | Eol => True
  end.

(** [r] looks at nothing outside the characters it matches. *)
Fixpoint anchor_free (r : regex) : Prop :=
  match r with
  | Bol | Eol => False
  | Seq a b | Alt a b => anchor_free a /\ anchor_free b
  | Star a => anchor_free a
  | Eps | Chr _ => True
  end.

(** [a, b) is a maximal run of characters satisfying [p]. *)
Definition maximal_run (p : ascii -> bool) (s : str) (a b : nat) : Prop :=
  a < b /\
  (forall k, a <= k < b -> at_ p s k = true) /\
  at_ p s b = false /\
  (a = 0 \/ at_ p s (a - 1) = false).

End Re.

(** ** The patterns of [parse_rpt_file] *)

Definition ws : Re.regex := Re.Chr Py.isspace.
Definition non_ws : Re.regex := Re.Chr (fun c => negb (Py.isspace c)).
Definition is_dash (c : ascii) : bool := Ascii.eqb dash c.
Definition dash_chr : Re.regex := Re.Chr is_dash.
Definition digit : Re.regex := Re.Chr Py.isdecimal.

(** [(\S+\s+)] *)
Definition token_group : Re.regex := Re.Seq (Re.Plus non_ws) (Re.Plus ws).

(** [^\s*(\S+\s+)+$] *)
Definition header_re : Re.regex :=
  Re.Seq Re.Bol (Re.Seq (Re.Star ws) (Re.Seq (Re.Plus token_group) Re.Eol)).

(** [([-]+\s+)] *)
Definition dash_group : Re.regex := Re.Seq (Re.Plus dash_chr) (Re.Plus ws).

(** [^\s*([-]+\s+)+] *)
Definition dash_line_re : Re.regex :=
  Re.Seq Re.Bol (Re.Seq (Re.Star ws) (Re.Plus dash_group)).

(** [([-]+)] *)
Definition dash_run_re : Re.regex := Re.Plus dash_chr.

Definition is_close (c : ascii) : bool := Ascii.eqb ")" c.

(** [\(\d+\s+rows? affected] *)
Definition footer_body : Re.regex :=
  Re.Seq (Re.Lit (txt "("))
    (Re.Seq (Re.Plus digit)
       (Re.Seq (Re.Plus ws)
          (Re.Seq (Re.Lit (txt "row"))
             (Re.Seq (Re.Opt (Re.Lit (txt "s")))
                (Re.Lit (txt " affected")))))).

(** [\(\d+\s+rows? affected\)]: the text up to the closing parenthesis,
    then the parenthesis. *)
Definition footer_re : Re.regex := Re.Seq footer_body (Re.Chr is_close).

(** ** The parser *)

(** A column span: the start and the end offset of a dash run. *)
Abbreviation span := (nat * nat)%type.

(** What the parser prints once the file is read, in order.
    [NoColumnSeparators] stands for the two lines of that failure, the
    second of which shows the dash line. *)
Inductive message : Type :=
| NoHeaderRow
| NoDashLine
| NoColumnSeparators (dash_line : str)
| FoundColumns (n : nat)
| ExtractedColumnNames (n : nat)
| ParsedDataRows (n : nat)
| Extracted (n_rows n_columns : nat).

(** The data frame: its column names and its rows. *)
Record table : Type := Table {
  columns : list str;
  rows : list (list (option str))
}.

(** What [parse_rpt_file] can raise. *)
Inductive exception : Type := ValueError.

(** How a call ends: it returns a value, or an exception leaves it. *)
Inductive outcome (A : Type) : Type :=
| Returns (a : A)
| Raises (e : exception).

Arguments Returns {A} a.
Arguments Raises {A} e.

(** [positions]: the spans of the dash runs of the dash line. *)
Definition find_positions (dash_line : str) : list span :=
  Re.finditer dash_run_re dash_line.

Definition span_at (positions : list span) (i : nat) : span :=
  nth i positions (0, 0).

(** [f"Column{i+1}"] *)
Definition placeholder (i : nat) : str := txt "Column" ++ Py.of_nat (i + 1).

(** The name of the column of span [i], for [i] from 1 on. *)
Definition middle_name (header_line : str) (positions : list span) (i : nat)
  : str :=
  let start := snd (span_at positions (i - 1)) in
  let end_ := fst (span_at positions i) in
  if start <? length header_line then
    let col_name :=
      Py.strip (Py.slice start (Nat.min end_ (length header_line)) header_line)
    in
    if Py.is_empty col_name then placeholder i else col_name
  else placeholder i.

(** The column after the last dash run, when the header goes on. *)
Definition trailing_name (header_line : str) (positions : list span)
  : list str :=
  let last_end := snd (last positions (0, 0)) in
  if last_end <? length header_line then
    let last_col := Py.strip (Py.slice_from last_end header_line) in
    if Py.is_empty last_col then [] else [last_col]
  else [].

Definition column_names (header_line : str) (positions : list span)
  : list str :=
  Py.strip
    (Py.slice_to (Nat.min (snd (span_at positions 0)) (length header_line))
       header_line)
  :: map (middle_name header_line positions) (seq 1 (length positions - 1))
  ++ trailing_name header_line positions.

(** [if value == "NULL": value = None] *)
Definition null_if_NULL (value : str) : option str :=
  if Py.eqb value (txt "NULL") then None else Some value.

Definition first_cell (positions : list span) (line : str) : option str :=
  let first_col_end := Nat.min (snd (span_at positions 0)) (length line) in
  null_if_NULL (Py.strip (Py.slice_to first_col_end line)).

Definition middle_cell (positions : list span) (line : str) (j : nat)
  : option str :=
  let start := snd (span_at positions (j - 1)) in
  if start <? length line then
    let end_ := fst (span_at positions j) in
    let width := Nat.min (end_ - start) (length line - start) in
    null_if_NULL (Py.strip (Py.slice start (start + width) line))
  else None.

Definition trailing_cell (positions : list span) (line : str)
  : list (option str) :=
  let last_end := snd (last positions (0, 0)) in
  if last_end <? length line then
    [null_if_NULL (Py.strip (Py.slice_from last_end line))]
  else [].

(** [row_data] before it is padded.  Slicing a text does not raise, so
    the [except] branches around the slices are never taken and have no
    counterpart here. *)
Definition row_data (positions : list span) (line : str)
  : list (option str) :=
  first_cell positions line
  :: map (middle_cell positions line) (seq 1 (length positions - 1))
  ++ trailing_cell positions line.

(** [while len(row_data) < len(column_names): row_data.append(None)] *)
Definition pad_row (n_columns : nat) (row : list (option str))
  : list (option str) :=
  row ++ repeat None (n_columns - length row).

(** [any(...)] over the row: some value is neither [None] nor the empty
    text. *)
Definition has_data (row : list (option str)) : bool :=
  existsb (fun val => match val with
                      | Some v => negb (Py.is_empty v)
                      | None => false
                      end) row.

(** One round of the loop over the lines: the row the line adds to
    [data_rows], if any. *)
Definition process_line (positions : list span) (n_columns : nat) (line : str)
  : option (list (option str)) :=
  if Py.is_empty (Py.strip line) || Py.contains (txt "Completion time:") line
  then None
  else
    let line := Py.replace tab space line in
    let row := pad_row n_columns (row_data positions line) in
    if has_data row then Some row else None.

(** The data section cut at the row-count footer. *)
Definition truncate_at_footer (data_section : str) : str :=
  match Re.search footer_re data_section with
  | Some (start, _) => Py.slice_to start data_section
  | None => data_section
  end.

Definition option_to_list {A : Type} (o : option A) : list A :=
  match o with Some a => [a] | None => [] end.

Definition extract_rows (positions : list span) (n_columns : nat)
  (data_section : str) : list (list (option str)) :=
  flat_map (fun line => option_to_list (process_line positions n_columns line))
    (Py.split newline (Py.strip (truncate_at_footer data_section))).

(** [pd.DataFrame(data_rows, columns=column_names)] for a list of rows:
    without rows the frame is empty; otherwise the rows are laid out as
    wide as the widest of them, shorter ones filled up with nulls, and
    the call raises [ValueError] ("N columns passed, passed data had M
    columns") unless that width is the number of column names. *)
Definition DataFrame (data_rows : list (list (option str)))
  (column_names : list str) : outcome table :=
  match data_rows with
  | [] => Returns (Table column_names [])
  | _ :: _ =>
      let width := list_max (map (@length (option str)) data_rows) in
      if width =? length column_names
      then Returns (Table column_names (map (pad_row width) data_rows))
      else Raises ValueError
  end.

(** [header_match.group(0).strip()] *)
Definition find_header_line (content : str) : option str :=
  match Re.search header_re content with
  | Some (h_start, h_end) => Some (Py.strip (Py.slice h_start h_end content))
  | None => None
  end.

(** [dash_line_match.group(0)] with its tabs replaced, and
    [dash_line_match.end()]. *)
Definition find_dash_line (content : str) : option (str * nat) :=
  match Re.search dash_line_re content with
  | Some (d_start, d_end) =>
      Some (Py.replace tab space (Py.slice d_start d_end content), d_end)
  | None => None
  end.

Definition parse_rpt_file (content : str)
  : list message * outcome (option table) :=
  match find_header_line content with
  | None => ([NoHeaderRow], Returns None)
  | Some header_line =>
      match find_dash_line content with
      | None => ([NoDashLine], Returns None)
      | Some (dash_line, d_end) =>
          let positions := find_positions dash_line in
          match positions with
          | [] => ([NoColumnSeparators dash_line], Returns None)
          | _ :: _ =>
              let header_line := Py.replace tab space header_line in
              let names := column_names header_line positions in
              let data_section := Py.slice_from d_end content in
              let data_rows :=
                extract_rows positions (length names) data_section in
              let printed :=
                [FoundColumns (length positions);
                 ExtractedColumnNames (length names);
                 ParsedDataRows (length data_rows)] in
              match DataFrame data_rows names with
              | Returns df =>
                  (printed ++ [Extracted (length (rows df)) (length names)],
                   Returns (Some df))
              | Raises e => (printed, Raises e)
              end
          end
      end
  end.

(** ** The file name test of [main] *)

(** [file_path.lower().endswith('.rpt')]: [main] goes on to parse only
    when this holds. *)
Definition is_rpt_path (file_path : str) : bool :=
  Py.endswith (txt ".rpt") (Py.lower file_path).

(** ** The specification's wording, to compare the code with *)

(** The column names as the specification derives them, the placeholder
    of span [i] being numbered [i + k]. *)
Definition spec_column_names (k : nat) (header_line : str)
  (positions : list span) : list str :=
  Py.strip (Py.slice 0 (snd (span_at positions 0)) header_line)
  :: map (fun i =>
            let text :=
              Py.strip (Py.slice (snd (span_at positions (i - 1)))
                                 (fst (span_at positions i)) header_line) in
            if Py.is_empty text then txt "Column" ++ Py.of_nat (i + k)
            else text)
         (seq 1 (length positions - 1))
  ++ (let rest :=
        Py.strip (Py.slice_from (snd (last positions (0, 0))) header_line) in
      if Py.is_empty rest then [] else [rest]).

(** A cell read from the sliced text [sliced]: null for the token NULL,
    the trimmed text otherwise. *)
Definition cell_reads (cell : option str) (sliced : str) : Prop :=
  (Py.strip sliced = txt "NULL" /\ cell = None) \/
  (Py.strip sliced <> txt "NULL" /\ cell = Some (Py.strip sliced)).

(** The three ways the layout detection fails. *)
Definition layout_failure (content : str) : Prop :=
  find_header_line content = None \/
  find_dash_line content = None \/
  (exists dash_line d_end,
      find_dash_line content = Some (dash_line, d_end) /\
      find_positions dash_line = []).

Definition failure_message (m : message) : bool :=
  match m with
  | NoHeaderRow | NoDashLine | NoColumnSeparators _ => true
  | _ => false
  end.

(** A character of a dash line: a dash or whitespace. *)
Definition dash_or_space (c : ascii) : bool := is_dash c || Py.isspace c.

(** A text without whitespace at either end: trimming leaves it as it
    is. *)
Definition trimmed (s : str) : Prop := Py.strip s = s.

(** An offset where a header match can end: at the end of a line, right
    after a whitespace character, further right than some character
    that is not whitespace. *)
Definition header_end (content : str) (q : nat) : Prop :=
  Re.at_end_line content q = true /\
  Re.at_ Py.isspace content (q - 1) = true /\
  exists p, p < q /\
            Re.at_ (fun c => negb (Py.isspace c)) content p = true.

(** ** Documents used below *)

(** Lines joined by line breaks. *)
Definition unlines (ls : list string) : str :=
  txt (String.concat (String newline EmptyString) ls).

(** The report of the end-to-end scenario. *)
Definition report_example : str :=
  unlines ["ID   NAME     AMOUNT";
           "---- -------- ------";
           "1    Alice    100.00";
           "2    NULL     50.00";
           EmptyString;
           "(2 rows affected)"]%string.

(** A report with a data line that goes on after the last dash run. *)
Definition long_line_report : str :=
  unlines ["ID   NAME ";
           "---- ----";
           "1    Al   extra"]%string.

(** A report whose dash line is followed by a line break. *)
Definition separator_example : str :=
  unlines ["A B C "; "---- --- ------"; "1    2   3"]%string.

(** A report that ends with its dash line, without a line break. *)
Definition separator_at_end : str :=
  unlines ["A B C "; "---- --- ------"]%string.

(** A report whose only dashes are one run at its end. *)
Definition single_run_at_end : str :=
  unlines ["ID NAME "; "-------"]%string.

(** A data section with a footer and text after it. *)
Definition footer_example : str :=
  unlines ["1    Alice"; "(1 row affected)"; "9    Zed"]%string.

(** A report with a footer, and the same report with text after the
    footer. *)
Definition footer_report : str :=
  unlines ["ID   NAME "; "---- ----"; "1    Al"; "(1 row affected)"]%string.

Definition footer_report_with_tail : str :=
  footer_report ++ unlines [EmptyString; "foo "; EmptyString]%string.

(** * Properties *)

(** ** The matcher *)

Lemma Match_bounds (s : str) r i j :
  Re.Match s r i j -> i <= j /\ (i < j -> j <= length s).
Proof.
  induction 1; try lia.
  split; [lia|]. intros _.
  apply Nat.le_succ_l, nth_error_Some. congruence.
Qed.

Lemma star_ends_mono body fuel fuel' i j :
  fuel <= fuel' ->
  In j (Re.star_ends body fuel i) -> In j (Re.star_ends body fuel' i).
Proof.
  revert fuel' i. induction fuel as [|f IH]; intros fuel' i Hle Hin.
  - contradiction.
  - destruct fuel' as [|f']; [lia|]. simpl in *.
    apply in_app_iff in Hin. apply in_app_iff.
    destruct Hin as [Hin|Hin]; [left|now right].
    apply in_flat_map in Hin. destruct Hin as [k [Hk Hj]].
    apply in_flat_map. exists k. split; [assumption|].
    destruct (i <? k); [|contradiction].
    apply IH; [lia|assumption].
Qed.

Lemma star_ends_sound (s : str) a body :
  (forall i j, In j (body i) -> Re.Match s a i j) ->
  forall fuel i j,
    In j (Re.star_ends body fuel i) -> Re.Match s (Re.Star a) i j.
Proof.
  intros Hbody. induction fuel as [|f IH]; intros i j Hin.
  - contradiction.
  - simpl in Hin. apply in_app_iff in Hin. destruct Hin as [Hin|Hin].
    + apply in_flat_map in Hin. destruct Hin as [k [Hk Hj]].
      destruct (i <? k) eqn:E; [|contradiction].
      apply Nat.ltb_lt in E.
      eapply Re.MStarCons; eauto.
    + destruct Hin as [<-|[]]. constructor.
Qed.

Lemma ends_sound (s : str) r :
  forall i j, In j (Re.ends s r i) -> Re.Match s r i j.
Proof.
  induction r; simpl; intros i j Hin.
  - destruct Hin as [<-|[]]. constructor.
  - destruct (nth_error s i) as [c|] eqn:E; [|contradiction].
    destruct (p c) eqn:Ep; [|contradiction].
    destruct Hin as [<-|[]]. econstructor; eauto.
  - destruct (Re.at_beginning_line s i) eqn:E; [|contradiction].
    destruct Hin as [<-|[]]. now constructor.
  - destruct (Re.at_end_line s i) eqn:E; [|contradiction].
    destruct Hin as [<-|[]]. now constructor.
  - apply in_flat_map in Hin. destruct Hin as [k [Hk Hj]].
    econstructor; eauto.
  - apply in_app_iff in Hin. destruct Hin.
    + apply Re.MAltL; auto.
    + apply Re.MAltR; auto.
  - exact (@star_ends_sound s r (Re.ends s r) IHr (S (length s - i)) i j Hin).
Qed.

Lemma ends_star_eq (s : str) a i :
  Re.ends s (Re.Star a) i =
  Re.star_ends (Re.ends s a) (S (length s - i)) i.
Proof. reflexivity. Qed.

Lemma ends_seq (s : str) a b i :
  Re.ends s (Re.Seq a b) i = flat_map (Re.ends s b) (Re.ends s a i).
Proof. reflexivity. Qed.

Lemma ends_bol (s : str) i :
  Re.ends s Re.Bol i = if Re.at_beginning_line s i then [i] else [].
Proof. reflexivity. Qed.

Lemma ends_plus (s : str) a i :
  Re.ends s (Re.Plus a) i = flat_map (Re.ends s (Re.Star a)) (Re.ends s a i).
Proof. reflexivity. Qed.

Lemma ends_complete (s : str) r i j :
  Re.Match s r i j -> In j (Re.ends s r i).
Proof.
  induction 1.
  - now left.
  - simpl. rewrite H, H0. now left.
  - simpl. rewrite H. now left.
  - simpl. rewrite H. now left.
  - simpl. apply in_flat_map. eauto.
  - simpl. apply in_app_iff. now left.
  - simpl. apply in_app_iff. now right.
  - simpl. apply in_app_iff. right. now left.
  - rewrite ends_star_eq in IHMatch2 |- *.
    cbn [Re.star_ends]. apply in_app_iff. left. apply in_flat_map.
    exists k. split; [assumption|].
    apply Nat.ltb_lt in H0 as E. rewrite E.
    apply Match_bounds in H. destruct H as [_ Hk]. specialize (Hk H0).
    eapply star_ends_mono; [|exact IHMatch2]. lia.
Qed.

(** The matcher finds exactly the matches. *)
Lemma ends_spec (s : str) r i j :
  In j (Re.ends s r i) <-> Re.Match s r i j.
Proof. split; [apply ends_sound | apply ends_complete]. Qed.

Lemma ends_bounds (s : str) r i j :
  In j (Re.ends s r i) -> i <= j /\ (i < j -> j <= length s).
Proof. intros H. apply ends_sound in H. now apply Match_bounds in H. Qed.

(** More rounds than characters left change nothing: the loop of [a*]
    never runs out of them. *)
Lemma star_ends_fuel (s : str) body :
  (forall i j, In j (body i) -> i < j -> j <= length s) ->
  forall fuel fuel' i,
    length s - i < fuel -> length s - i < fuel' ->
    Re.star_ends body fuel i = Re.star_ends body fuel' i.
Proof.
  intros Hbody. induction fuel as [|f IH]; intros fuel' i H1 H2; [lia|].
  destruct fuel' as [|f']; [lia|]. simpl. f_equal.
  rewrite !flat_map_concat_map. f_equal.
  apply map_ext_in. intros j Hj.
  destruct (i <? j) eqn:E; [|reflexivity].
  apply Nat.ltb_lt in E. specialize (Hbody _ _ Hj E).
  apply IH; lia.
Qed.

(** The loop of [a*], unfolded once. *)
Lemma ends_star_unfold (s : str) a i :
  Re.ends s (Re.Star a) i =
  flat_map (fun j => if i <? j then Re.ends s (Re.Star a) j else [])
    (Re.ends s a i) ++ [i].
Proof.
  rewrite ends_star_eq. cbn [Re.star_ends]. f_equal.
  rewrite !flat_map_concat_map. f_equal.
  apply map_ext_in. intros j Hj.
  destruct (i <? j) eqn:E; [|reflexivity].
  apply Nat.ltb_lt in E. rewrite ends_star_eq.
  destruct (ends_bounds _ _ _ _ Hj) as [_ Hb]. specialize (Hb E).
  apply star_ends_fuel with (s := s); try lia.
  intros i' j' Hin Hlt. now apply (ends_bounds _ _ _ _ Hin).
Qed.

(** *** Searching *)

Lemma search_from_some (s : str) r n start a e :
  Re.search_from s r n start = Some (a, e) ->
  start <= a < start + n /\
  (exists tl, Re.ends s r a = e :: tl) /\
  (forall a', start <= a' < a -> Re.ends s r a' = []).
Proof.
  revert start. induction n as [|n IH]; simpl; intros start H.
  - discriminate.
  - destruct (Re.ends s r start) as [|e' tl] eqn:E.
    + apply IH in H. destruct H as (Hr & Htl & Hno).
      split; [lia|]. split; [assumption|].
      intros a' Ha'. destruct (Nat.eq_dec a' start) as [->|Hne].
      * assumption.
      * apply Hno. lia.
    + injection H as <- <-. split; [lia|]. split; [eauto|].
      intros a' Ha'. lia.
Qed.

Lemma search_from_none (s : str) r n start :
  Re.search_from s r n start = None ->
  forall a, start <= a < start + n -> Re.ends s r a = [].
Proof.
  revert start. induction n as [|n IH]; simpl; intros start H a Ha.
  - lia.
  - destruct (Re.ends s r start) as [|e' tl] eqn:E; [|discriminate].
    destruct (Nat.eq_dec a start) as [->|Hne]; [assumption|].
    apply (IH (S start)); [assumption|lia].
Qed.

Lemma search_from_finds (s : str) r n start k :
  start <= k < start + n -> Re.ends s r k <> [] ->
  exists a e, Re.search_from s r n start = Some (a, e) /\ a <= k.
Proof.
  intros Hk Hne.
  destruct (Re.search_from s r n start) as [[a e]|] eqn:E.
  - exists a, e. split; [reflexivity|].
    apply search_from_some in E. destruct E as (_ & _ & Hno).
    destruct (le_lt_dec a k) as [Hle|Hlt]; [assumption|].
    exfalso. apply Hne, Hno. lia.
  - exfalso. apply Hne. eapply search_from_none; eauto.
Qed.

(** [re.search] returns a match, and the leftmost place where there is
    one. *)
Lemma search_some (s : str) r a e :
  Re.search r s = Some (a, e) ->
  Re.Match s r a e /\ a <= length s /\
  (forall a' e', a' < a -> ~ Re.Match s r a' e').
Proof.
  intros H. apply search_from_some in H. destruct H as (Hr & [tl Htl] & Hno).
  split; [|split].
  - apply ends_sound. rewrite Htl. now left.
  - lia.
  - intros a' e' Hlt HM. apply ends_complete in HM.
    rewrite Hno in HM; [contradiction|lia].
Qed.

Lemma search_none (s : str) r :
  Re.search r s = None ->
  forall a e, a <= length s -> ~ Re.Match s r a e.
Proof.
  intros H a e Ha HM. apply ends_complete in HM.
  rewrite (search_from_none _ _ _ _ H a) in HM; [contradiction|lia].
Qed.

Lemma search_finds (s : str) r k e :
  k <= length s -> Re.Match s r k e ->
  exists a e', Re.search r s = Some (a, e') /\ a <= k.
Proof.
  intros Hk HM. apply search_from_finds; [lia|].
  apply ends_complete in HM. intros E. rewrite E in HM. contradiction.
Qed.

(** *** Runs of one character class *)

Lemma at_true p (s : str) k :
  Re.at_ p s k = true <-> exists c, nth_error s k = Some c /\ p c = true.
Proof.
  unfold Re.at_. destruct (nth_error s k) as [c|].
  - split; [eauto|]. intros [c' [E H]]. now injection E as ->.
  - split; [discriminate|]. intros [c' [E _]]. discriminate.
Qed.

Lemma at_lt p (s : str) k : Re.at_ p s k = true -> k < length s.
Proof.
  intros H. apply at_true in H. destruct H as [c [E _]].
  apply nth_error_Some. congruence.
Qed.

Lemma ends_chr (s : str) p i :
  Re.ends s (Re.Chr p) i = if Re.at_ p s i then [S i] else [].
Proof.
  simpl. unfold Re.at_. destruct (nth_error s i); reflexivity.
Qed.

(** Greedy [p*] first tries the whole run of [p] characters. *)
Lemma star_chr_head (s : str) p fuel i :
  length s - i < fuel ->
  exists e tl,
    Re.star_ends (Re.ends s (Re.Chr p)) fuel i = e :: tl /\
    i <= e /\
    (forall k, i <= k < e -> Re.at_ p s k = true) /\
    Re.at_ p s e = false.
Proof.
  revert i. induction fuel as [|f IH]; intros i Hf; [lia|].
  cbn [Re.star_ends]. rewrite ends_chr.
  destruct (Re.at_ p s i) eqn:E.
  - apply at_lt in E as Hlt.
    destruct (IH (S i)) as (e & tl & Heq & Hle & Hall & Hend); [lia|].
    cbn [flat_map]. rewrite (proj2 (Nat.ltb_lt i (S i))) by lia.
    rewrite Heq. exists e, ((tl ++ []) ++ [i]).
    split; [reflexivity|]. split; [lia|]. split; [|assumption].
    intros k Hk. destruct (Nat.eq_dec k i) as [->|Hne]; [assumption|].
    apply Hall. lia.
  - exists i, []. split; [reflexivity|]. split; [lia|]. split; [|assumption].
    intros k Hk. lia.
Qed.

Lemma plus_chr_ends_nil (s : str) p i :
  Re.at_ p s i = false -> Re.ends s (Re.Plus (Re.Chr p)) i = [].
Proof.
  intros E. unfold Re.Plus. cbn [Re.ends]. fold (Re.ends s (Re.Chr p) i).
  rewrite ends_chr, E. reflexivity.
Qed.

Lemma plus_chr_ends_head (s : str) p i :
  Re.at_ p s i = true ->
  exists e tl,
    Re.ends s (Re.Plus (Re.Chr p)) i = e :: tl /\
    i < e /\
    (forall k, i <= k < e -> Re.at_ p s k = true) /\
    Re.at_ p s e = false.
Proof.
  intros E. apply at_lt in E as Hlt.
  destruct (star_chr_head s p (S (length s - S i)) (S i))
    as (e & tl & Heq & Hle & Hall & Hend); [lia|].
  exists e, (tl ++ []).
  split; [|split; [lia|split; [|assumption]]].
  - change (Re.ends s (Re.Plus (Re.Chr p)) i)
      with (flat_map (Re.ends s (Re.Star (Re.Chr p)))
              (Re.ends s (Re.Chr p) i)).
    rewrite ends_chr, E. cbn [flat_map]. rewrite ends_star_eq, Heq.
    reflexivity.
  - intros k Hk. destruct (Nat.eq_dec k i) as [->|Hne]; [assumption|].
    apply Hall. lia.
Qed.

(** *** [re.finditer] of [p+]: the maximal runs, from left to right *)

Lemma finditer_from_step (s : str) p f pos a e :
  Re.search_from s (Re.Plus (Re.Chr p)) (S (length s) - pos) pos
    = Some (a, e) ->
  Re.finditer_from s (Re.Plus (Re.Chr p)) (S f) pos
    = (a, e) :: Re.finditer_from s (Re.Plus (Re.Chr p)) f e
  /\ pos <= a < e /\
  (forall k, a <= k < e -> Re.at_ p s k = true) /\
  Re.at_ p s e = false /\
  (forall k, pos <= k < a -> Re.at_ p s k = false).
Proof.
  intros H. cbn [Re.finditer_from]. rewrite H.
  apply search_from_some in H. destruct H as (Hr & [tl Htl] & Hno).
  destruct (Re.at_ p s a) eqn:Ea.
  - destruct (plus_chr_ends_head s p a Ea) as (e' & tl' & Heq & Hlt & Hall & He).
    rewrite Heq in Htl. injection Htl as -> _.
    rewrite (proj2 (Nat.ltb_lt a e)) by lia.
    repeat split; try assumption; try lia.
    intros k Hk. destruct (Re.at_ p s k) eqn:Ek; [|reflexivity].
    destruct (plus_chr_ends_head s p k Ek) as (ek & tlk & Heqk & _).
    rewrite Hno in Heqk by lia. discriminate.
  - rewrite plus_chr_ends_nil in Htl by assumption. discriminate.
Qed.

Lemma finditer_from_runs (s : str) p fuel :
  forall pos a b,
    pos = 0 \/ Re.at_ p s pos = false ->
    In (a, b) (Re.finditer_from s (Re.Plus (Re.Chr p)) fuel pos) ->
    pos <= a /\ Re.maximal_run p s a b.
Proof.
  induction fuel as [|f IH]; intros pos a b Hpos Hin; [contradiction|].
  destruct (Re.search_from s (Re.Plus (Re.Chr p)) (S (length s) - pos) pos)
    as [[a0 e0]|] eqn:E.
  - destruct (finditer_from_step s p f pos a0 e0 E)
      as (Heq & Hr & Hall & He & Hbefore).
    rewrite Heq in Hin. destruct Hin as [Hin|Hin].
    + injection Hin as <- <-. split; [lia|].
      unfold Re.maximal_run. repeat split; try assumption; try lia.
      destruct (Nat.eq_dec a0 pos) as [->|Hne].
      * destruct Hpos as [->|Hpos]; [now left|].
        rewrite Hall in Hpos by lia. discriminate.
      * right. apply Hbefore. lia.
    + apply IH in Hin; [|now right]. split; [lia|apply Hin].
  - cbn [Re.finditer_from] in Hin. rewrite E in Hin. contradiction.
Qed.

Lemma finditer_from_covers (s : str) p fuel :
  forall pos k,
    length s - pos < fuel -> pos <= k -> Re.at_ p s k = true ->
    exists a b,
      In (a, b) (Re.finditer_from s (Re.Plus (Re.Chr p)) fuel pos) /\
      a <= k < b.
Proof.
  induction fuel as [|f IH]; intros pos k Hf Hk Hat; [lia|].
  apply at_lt in Hat as Hlt.
  destruct (plus_chr_ends_head s p k Hat) as (ek & tlk & Heqk & _).
  destruct (search_from_finds s (Re.Plus (Re.Chr p))
              (S (length s) - pos) pos k) as (a & e & E & Hle).
  { lia. } { rewrite Heqk. discriminate. }
  destruct (finditer_from_step s p f pos a e E)
    as (Heq & Hr & Hall & He & Hbefore).
  rewrite Heq. destruct (le_lt_dec e k) as [Hge|Hin].
  - assert (He' : e <= length s).
    { assert (Re.at_ p s (e - 1) = true) by (apply Hall; lia).
      apply at_lt in H. lia. }
    destruct (IH e k) as (a' & b' & Hin' & Hk'); try assumption; try lia.
    exists a', b'. split; [now right|assumption].
  - exists a, e. split; [now left|lia].
Qed.

Lemma finditer_from_sorted (s : str) p fuel :
  forall pos,
    pos = 0 \/ Re.at_ p s pos = false ->
    StronglySorted (fun x y => snd x < fst y)
      (Re.finditer_from s (Re.Plus (Re.Chr p)) fuel pos).
Proof.
  induction fuel as [|f IH]; intros pos Hpos; [constructor|].
  destruct (Re.search_from s (Re.Plus (Re.Chr p)) (S (length s) - pos) pos)
    as [[a0 e0]|] eqn:E.
  - destruct (finditer_from_step s p f pos a0 e0 E)
      as (Heq & Hr & Hall & He & Hbefore).
    rewrite Heq. constructor.
    + apply IH. now right.
    + apply Forall_forall. intros [a b] Hin.
      apply finditer_from_runs in Hin; [|now right].
      destruct Hin as [Hle (Hab & Hrun & _)]. simpl.
      destruct (Nat.eq_dec a e0) as [->|Hne]; [|lia].
      rewrite Hrun in He by lia. discriminate.
  - cbn [Re.finditer_from]. rewrite E. constructor.
Qed.

(** The spans of [p+] are exactly the maximal runs of [p] characters. *)
Lemma finditer_plus_chr_runs (s : str) p a b :
  In (a, b) (Re.finditer (Re.Plus (Re.Chr p)) s) -> Re.maximal_run p s a b.
Proof.
  intros H. apply finditer_from_runs in H; [apply H|now left].
Qed.

Lemma maximal_run_unique p (s : str) a b a' b' k :
  Re.maximal_run p s a b -> Re.maximal_run p s a' b' ->
  a <= k < b -> a' <= k < b' -> a = a' /\ b = b'.
Proof.
  intros (Hab & Hall & He & Hs) (Hab' & Hall' & He' & Hs') Hk Hk'.
  assert (Hb : b = b').
  { destruct (lt_eq_lt_dec b b') as [[Hlt|Heq]|Hgt]; [|assumption|].
    - rewrite Hall' in He by lia. discriminate.
    - rewrite Hall in He' by lia. discriminate. }
  split; [|assumption].
  destruct (lt_eq_lt_dec a a') as [[Hlt|Heq]|Hgt]; [|assumption|].
  - destruct Hs' as [->|Hs']; [lia|].
    rewrite Hall in Hs' by lia. discriminate.
  - destruct Hs as [->|Hs]; [lia|].
    rewrite Hall' in Hs by lia. discriminate.
Qed.

Lemma finditer_plus_chr_complete (s : str) p a b :
  Re.maximal_run p s a b -> In (a, b) (Re.finditer (Re.Plus (Re.Chr p)) s).
Proof.
  intros Hrun. pose proof Hrun as (Hab & Hall & _).
  destruct (finditer_from_covers s p (S (length s)) 0 a)
    as (a' & b' & Hin & Hk); try lia.
  { apply Hall. lia. }
  pose proof (finditer_plus_chr_runs s p a' b' Hin) as Hrun'.
  destruct (maximal_run_unique p s a b a' b' a Hrun Hrun') as [-> ->];
    try lia.
  assumption.
Qed.

(** *** What a match says about the matched characters *)

Ltac inv H := inversion H; subst; clear H.

Lemma Match_classes P (s : str) r i j :
  Re.classes_within P r -> Re.Match s r i j ->
  forall k, i <= k < j -> Re.at_ P s k = true.
Proof.
  intros Hc HM. induction HM; simpl in Hc; intros k0 Hk; try lia.
  - assert (k0 = i) as -> by lia. unfold Re.at_. rewrite H. auto.
  - apply Match_bounds in HM1, HM2. destruct Hc as [Ha Hb].
    destruct (le_lt_dec k k0); [apply IHHM2 | apply IHHM1]; auto; lia.
  - apply IHHM; [apply Hc|lia].
  - apply IHHM; [apply Hc|lia].
  - apply Match_bounds in HM1, HM2.
    destruct (le_lt_dec k k0); [apply IHHM2 | apply IHHM1]; auto; lia.
Qed.

Lemma firstn_eq_nth_error {A} (l l' : list A) j i :
  firstn j l = firstn j l' -> i < j -> nth_error l i = nth_error l' i.
Proof.
  intros Heq Hlt.
  pose proof (nth_error_firstn j l i) as H1.
  pose proof (nth_error_firstn j l' i) as H2.
  rewrite (proj2 (Nat.ltb_lt i j) Hlt) in H1, H2.
  rewrite <- H1, <- H2, Heq. reflexivity.
Qed.

Lemma firstn_eq_le {A} (l l' : list A) j k :
  firstn j l = firstn j l' -> k <= j -> firstn k l = firstn k l'.
Proof.
  intros Heq Hle. rewrite <- (Nat.min_l k j) by lia.
  now rewrite <- !firstn_firstn, Heq.
Qed.

(** A pattern without [^] and [$] sees only the characters it matches. *)
Lemma Match_transfer (s s' : str) r i j :
  Re.anchor_free r -> firstn j s = firstn j s' ->
  Re.Match s r i j -> Re.Match s' r i j.
Proof.
  intros Ha Heq HM. induction HM; simpl in Ha; try contradiction.
  - constructor.
  - econstructor; [|eassumption].
    rewrite <- H. symmetry. apply firstn_eq_nth_error with (j := S i); auto.
  - destruct Ha as [Ha Hb]. apply Match_bounds in HM1 as B1, HM2 as B2.
    econstructor; [apply IHHM1 | apply IHHM2]; auto.
    apply firstn_eq_le with (j := j); [assumption|lia].
  - apply Re.MAltL. apply IHHM; tauto.
  - apply Re.MAltR. apply IHHM; tauto.
  - constructor.
  - apply Match_bounds in HM1 as B1, HM2 as B2.
    econstructor; [apply IHHM1 | assumption | apply IHHM2]; auto.
    apply firstn_eq_le with (j := j); [assumption|lia].
Qed.

Lemma Match_plus_chr (s : str) p i j :
  Re.Match s (Re.Plus (Re.Chr p)) i j ->
  i < j /\ forall k, i <= k < j -> Re.at_ p s k = true.
Proof.
  intros HM. split.
  - unfold Re.Plus in HM. inv HM. inv H1. apply Match_bounds in H4. lia.
  - apply (Match_classes p s (Re.Plus (Re.Chr p)) i j); [|assumption].
    simpl. auto.
Qed.

(** ** The end-to-end scenario *)

(** C1 (the code differs): on the report of the end-to-end scenario the
    parser does not return the names ID, NAME, AMOUNT and the rows
    1/Alice/100.00 and 2/null/50.00.  The header match runs over the
    first four lines, so a fourth column name made of the lines after
    the header is derived; the names and cells of the second and third
    column are cut from the one-character gaps between the dash runs,
    which gives the placeholders Column2 and Column3 and empty cells.
    The same holds when the report ends in a line break. *)
Theorem end_to_end_example_result :
  snd (parse_rpt_file report_example)
  = Returns (Some (Table
      [txt "ID"; txt "Column2"; txt "Column3";
       unlines ["---- -------- ------";
                "1    Alice    100.00";
                "2    NULL     50.00"]%string]
      [[Some (txt "1"); Some []; Some []; None];
       [Some (txt "2"); Some []; Some []; None]]))
  /\
  snd (parse_rpt_file (report_example ++ [newline]))
  = Returns (Some (Table
      [txt "ID"; txt "Column2"; txt "Column3";
       unlines ["---- -------- ------";
                "1    Alice    100.00";
                "2    NULL     50.00";
                EmptyString;
                "(2 rows affected)"]%string]
      [[Some (txt "1"); Some []; Some []; None];
       [Some (txt "2"); Some []; Some []; None]])).
Proof. split; vm_compute; reflexivity. Qed.

Lemma length_pad_row n_columns row :
  length (pad_row n_columns row) = Nat.max n_columns (length row).
Proof. unfold pad_row. rewrite length_app, repeat_length. lia. Qed.

Lemma length_row_data positions line :
  length (row_data positions line)
  = S (length positions - 1)
    + (if snd (last positions (0, 0)) <? length line then 1 else 0).
Proof.
  unfold row_data, trailing_cell. cbn [length].
  rewrite length_app, length_map, length_seq.
  destruct (snd (last positions (0, 0)) <? length line); reflexivity.
Qed.

(** C2 (the code differs): a data line that is longer than the last
    dash run's end gets a trailing cell even though no trailing column
    name was derived; the row then has three cells for two names, and
    building the frame raises [ValueError] once the number of parsed
    rows is printed: no table is returned.  In general a padded row has
    the number of column names or, when that is more, one cell per span
    plus one when the line goes on after the last span: padding makes
    up for short rows only. *)
Theorem long_line_row_exceeds_names :
  parse_rpt_file long_line_report
  = ([FoundColumns 2; ExtractedColumnNames 2; ParsedDataRows 1],
     Raises ValueError)
  /\ extract_rows [(0, 4); (5, 9)] 2 (txt "1    Al   extra")
     = [[Some (txt "1"); Some []; Some (txt "extra")]]
  /\ length (column_names (txt "ID   NAME") [(0, 4); (5, 9)]) = 2
  /\ length (pad_row 2 (row_data [(0, 4); (5, 9)] (txt "1    Al   extra")))
     = 3
  /\ (forall positions n_columns line,
        length (pad_row n_columns (row_data positions line))
        = Nat.max n_columns
            (S (length positions - 1)
             + (if snd (last positions (0, 0)) <? length line
                then 1 else 0))).
Proof.
  repeat split; try (vm_compute; reflexivity).
  intros positions n_columns line.
  now rewrite length_pad_row, length_row_data.
Qed.

(** C3 (the code differs): the header match of the end-to-end report
    starts on the first line and ends after the fourth, so the header
    line the parser goes on with holds four physical lines; and a
    document whose lines are "A B" and "C D" has no header match at all,
    although its first line is made of two tokens. *)
Theorem header_match_spans_lines :
  Re.search header_re report_example = Some (0, 83)
  /\ find_header_line report_example
     = Some (unlines ["ID   NAME     AMOUNT";
                      "---- -------- ------";
                      "1    Alice    100.00";
                      "2    NULL     50.00"]%string)
  /\ parse_rpt_file (unlines ["A B"; "C D"]%string)
     = ([NoHeaderRow], Returns None).
Proof. repeat split; vm_compute; reflexivity. Qed.

(** ** Text helpers *)

Lemma eqb_eq (a b : str) : Py.eqb a b = true <-> a = b.
Proof.
  revert b. induction a as [|x a IH]; intros [|y b]; simpl;
    try (split; [discriminate|discriminate]); try tauto.
  rewrite andb_true_iff, Ascii.eqb_eq, IH.
  split; [intros [-> ->]; reflexivity | intros H; injection H; auto].
Qed.

Lemma is_empty_true (s : str) : Py.is_empty s = true <-> s = [].
Proof. destruct s; simpl; split; congruence. Qed.

Lemma is_empty_false (s : str) : Py.is_empty s = false <-> s <> [].
Proof. destruct s; simpl; split; congruence. Qed.

Lemma firstn_min_length {A} k (l : list A) :
  firstn (Nat.min k (length l)) l = firstn k l.
Proof.
  destruct (le_lt_dec k (length l)).
  - now rewrite Nat.min_l.
  - rewrite Nat.min_r, firstn_all, firstn_all2 by lia. reflexivity.
Qed.

(** Clipping the end of a slice to the length changes nothing. *)
Lemma slice_clip a b (s : str) :
  Py.slice a (Nat.min b (length s)) s = Py.slice a b s.
Proof.
  unfold Py.slice. destruct (le_lt_dec b (length s)).
  - now rewrite Nat.min_l.
  - rewrite Nat.min_r by lia.
    rewrite !firstn_all2; [reflexivity| |]; rewrite length_skipn; lia.
Qed.

Lemma slice_to_clip b (s : str) :
  Py.slice_to (Nat.min b (length s)) s = Py.slice 0 b s.
Proof.
  unfold Py.slice_to, Py.slice. rewrite Nat.sub_0_r. simpl.
  apply firstn_min_length.
Qed.

Lemma slice_past_end a b (s : str) : length s <= a -> Py.slice a b s = [].
Proof.
  intros H. unfold Py.slice. rewrite skipn_all2 by assumption.
  apply firstn_nil.
Qed.

(** ** Column names *)

Lemma middle_name_spec header_line positions i :
  middle_name header_line positions i =
  let text :=
    Py.strip (Py.slice (snd (span_at positions (i - 1)))
                       (fst (span_at positions i)) header_line) in
  if Py.is_empty text then txt "Column" ++ Py.of_nat (i + 1) else text.
Proof.
  unfold middle_name, placeholder. cbv zeta.
  destruct (snd (span_at positions (i - 1)) <? length header_line) eqn:E.
  - rewrite slice_clip. reflexivity.
  - apply Nat.ltb_ge in E. rewrite slice_past_end by assumption.
    reflexivity.
Qed.

Lemma trailing_name_spec header_line positions :
  trailing_name header_line positions =
  let rest :=
    Py.strip (Py.slice_from (snd (last positions (0, 0))) header_line) in
  if Py.is_empty rest then [] else [rest].
Proof.
  unfold trailing_name. cbv zeta.
  destruct (snd (last positions (0, 0)) <? length header_line) eqn:E.
  - reflexivity.
  - apply Nat.ltb_ge in E. unfold Py.slice_from.
    rewrite skipn_all2 by assumption. reflexivity.
Qed.

(** C5 (amended): name 0 is header_line[0 : span0.end] trimmed; for
    every span i > 0 the name is header_line[span(i-1).end :
    span(i).start] trimmed, clipped to the header length; whenever that
    trimmed slice is empty, which includes a header line that is too
    short, the name is the placeholder "ColumnN" with N = i + 1; and
    non-empty trimmed header text after the last span's end is appended
    as one more column name. *)
Theorem column_names_as_specified header_line positions :
  column_names header_line positions
  = spec_column_names 1 header_line positions.
Proof.
  unfold column_names, spec_column_names.
  rewrite slice_to_clip, trailing_name_spec. f_equal. f_equal.
  apply map_ext. intros i. apply middle_name_spec.
Qed.

(** C5 as stated fails: with the header "AB" and the spans (0,2) and
    (3,5), span 1 has no header text; the parser names it "Column2",
    not "Column3". *)
Lemma placeholder_is_not_i_plus_2 :
  column_names (txt "AB") [(0, 2); (3, 5)] = [txt "AB"; txt "Column2"]
  /\ spec_column_names 2 (txt "AB") [(0, 2); (3, 5)]
     = [txt "AB"; txt "Column3"]
  /\ column_names (txt "AB") [(0, 2); (3, 5)]
     <> spec_column_names 2 (txt "AB") [(0, 2); (3, 5)].
Proof. repeat split; try (vm_compute; reflexivity). vm_compute. discriminate. Qed.

(** ** Cells *)

Lemma null_if_NULL_reads sliced :
  cell_reads (null_if_NULL (Py.strip sliced)) sliced.
Proof.
  unfold cell_reads, null_if_NULL.
  destruct (Py.eqb (Py.strip sliced) (txt "NULL")) eqn:E.
  - left. split; [now apply eqb_eq|reflexivity].
  - right. split; [|reflexivity].
    intros H. apply eqb_eq in H. congruence.
Qed.

Lemma first_cell_reads positions line :
  cell_reads (first_cell positions line)
    (Py.slice 0 (snd (span_at positions 0)) line).
Proof.
  unfold first_cell. cbv zeta. rewrite slice_to_clip.
  apply null_if_NULL_reads.
Qed.

Lemma middle_cell_reads positions line j :
  snd (span_at positions (j - 1)) < length line ->
  cell_reads (middle_cell positions line j)
    (Py.slice (snd (span_at positions (j - 1)))
              (fst (span_at positions j)) line).
Proof.
  intros H. unfold middle_cell. cbv zeta.
  rewrite (proj2 (Nat.ltb_lt _ _) H).
  set (start := snd (span_at positions (j - 1))) in *.
  set (end_ := fst (span_at positions j)).
  replace (Py.slice start (start + Nat.min (end_ - start) (length line - start))
             line)
    with (Py.slice start end_ line).
  - apply null_if_NULL_reads.
  - unfold Py.slice.
    replace (start + Nat.min (end_ - start) (length line - start) - start)
      with (Nat.min (end_ - start) (length (skipn start line)))
      by (rewrite length_skipn; lia).
    now rewrite firstn_min_length.
Qed.

Lemma trailing_cell_reads positions line :
  snd (last positions (0, 0)) < length line ->
  exists cell,
    trailing_cell positions line = [cell] /\
    cell_reads cell (Py.slice_from (snd (last positions (0, 0))) line).
Proof.
  intros H. apply Nat.ltb_lt in H.
  exists (null_if_NULL
            (Py.strip (Py.slice_from (snd (last positions (0, 0))) line))).
  split; [|apply null_if_NULL_reads].
  unfold trailing_cell. cbv zeta. rewrite H. reflexivity.
Qed.

(** C6: the cells of a row are the first cell, the middle cells and the
    trailing cell; each of them that is cut from the line is null
    exactly when its sliced text, trimmed, is the token NULL, and is the
    trimmed text itself otherwise; a slice that trims to the empty text
    gives the empty text, not null, and a token in another case is kept
    as it is. *)
Theorem extracted_cells_null_iff_NULL positions line :
  row_data positions line
  = first_cell positions line
    :: map (middle_cell positions line) (seq 1 (length positions - 1))
    ++ trailing_cell positions line
  /\ cell_reads (first_cell positions line)
       (Py.slice 0 (snd (span_at positions 0)) line)
  /\ (forall j,
        snd (span_at positions (j - 1)) < length line ->
        cell_reads (middle_cell positions line j)
          (Py.slice (snd (span_at positions (j - 1)))
                    (fst (span_at positions j)) line))
  /\ (snd (last positions (0, 0)) < length line ->
      exists cell,
        trailing_cell positions line = [cell] /\
        cell_reads cell (Py.slice_from (snd (last positions (0, 0))) line))
  /\ (forall cell sliced,
        cell_reads cell sliced ->
        (cell = None <-> Py.strip sliced = txt "NULL") /\
        (Py.strip sliced = [] -> cell = Some []) /\
        (Py.strip sliced = txt "null" -> cell = Some (txt "null"))).
Proof.
  split; [reflexivity|].
  split; [apply first_cell_reads|].
  split; [apply middle_cell_reads|].
  split; [apply trailing_cell_reads|].
  intros cell sliced [[E ->]|[E ->]].
  - split; [tauto|]. rewrite E. split; discriminate.
  - split; [split; [discriminate|contradiction]|].
    split; intros ->; reflexivity.
Qed.

(** ** Lines and rows *)

Lemma has_data_true row :
  has_data row = true <-> exists v, In (Some v) row /\ v <> [].
Proof.
  unfold has_data. rewrite existsb_exists. split.
  - intros [[v|] [Hin Hv]]; [|discriminate].
    exists v. split; [assumption|].
    apply is_empty_false. now apply negb_true_iff.
  - intros [v [Hin Hv]]. exists (Some v). split; [assumption|].
    apply negb_true_iff. now apply is_empty_false.
Qed.

Lemma process_line_some positions n_columns line row :
  process_line positions n_columns line = Some row <->
  Py.strip line <> [] /\
  Py.contains (txt "Completion time:") line = false /\
  row = pad_row n_columns (row_data positions (Py.replace tab space line)) /\
  exists v, In (Some v) row /\ v <> [].
Proof.
  unfold process_line. cbv zeta.
  destruct (Py.is_empty (Py.strip line)) eqn:E1; cbn [orb].
  - apply is_empty_true in E1. split; [discriminate|]. tauto.
  - apply is_empty_false in E1.
    destruct (Py.contains (txt "Completion time:") line) eqn:E2.
    + split; [discriminate|]. intros (_ & H & _). discriminate.
    + destruct (has_data _) eqn:E3.
      * apply has_data_true in E3. split.
        -- intros H. injection H as <-. auto.
        -- intros (_ & _ & -> & _). reflexivity.
      * split; [discriminate|]. intros (_ & _ & -> & H).
        apply has_data_true in H. congruence.
Qed.

Lemma in_extract_rows positions n_columns data_section row :
  In row (extract_rows positions n_columns data_section) <->
  exists line,
    In line (Py.split newline (Py.strip (truncate_at_footer data_section))) /\
    process_line positions n_columns line = Some row.
Proof.
  unfold extract_rows. rewrite in_flat_map. split.
  - intros [line [Hin Hrow]]. exists line. split; [assumption|].
    destruct (process_line positions n_columns line); simpl in Hrow.
    + destruct Hrow as [->|[]]. reflexivity.
    + contradiction.
  - intros [line [Hin Hrow]]. exists line. split; [assumption|].
    rewrite Hrow. now left.
Qed.

(** C8: a line that is blank after trimming, or that contains
    "Completion time:", adds no row; a line that is processed adds its
    padded row only if one of the row's cells is a non-empty text, and
    adds nothing otherwise; and the rows of the table are exactly the
    rows its lines add. *)
Theorem blank_and_footer_lines_add_no_row positions n_columns line :
  (Py.strip line = [] -> process_line positions n_columns line = None)
  /\ (Py.contains (txt "Completion time:") line = true ->
      process_line positions n_columns line = None)
  /\ (forall row,
        process_line positions n_columns line = Some row <->
        Py.strip line <> [] /\
        Py.contains (txt "Completion time:") line = false /\
        row = pad_row n_columns
                (row_data positions (Py.replace tab space line)) /\
        exists v, In (Some v) row /\ v <> [])
  /\ (forall data_section row,
        In row (extract_rows positions n_columns data_section) <->
        exists l,
          In l (Py.split newline
                  (Py.strip (truncate_at_footer data_section))) /\
          process_line positions n_columns l = Some row).
Proof.
  split; [|split; [|split]].
  - intros H. unfold process_line. rewrite H. reflexivity.
  - intros H. unfold process_line. rewrite H, orb_true_r. reflexivity.
  - intros row. apply process_line_some.
  - intros data_section row. apply in_extract_rows.
Qed.

(** ** Failure of the layout detection *)

(** C9: when the header line, the dash line or the dash runs are not
    found, the parser returns no table and prints one message, that of
    the failure: no column names are derived and no line is processed. *)
Theorem layout_failure_returns_no_table content :
  layout_failure content ->
  exists m,
    parse_rpt_file content = ([m], Returns None) /\
    failure_message m = true.
Proof.
  unfold layout_failure, parse_rpt_file.
  intros [H|[H|(dash_line & d_end & H & Hp)]].
  - rewrite H. eauto.
  - rewrite H. destruct (find_header_line content); eauto.
  - rewrite H, Hp. destruct (find_header_line content); eauto.
Qed.

Lemma layout_failure_returns_no_table_witness :
  layout_failure (unlines ["A B"; "C D"]%string) /\
  exists m,
    parse_rpt_file (unlines ["A B"; "C D"]%string) = ([m], Returns None) /\
    failure_message m = true.
Proof.
  split.
  - left. vm_compute. reflexivity.
  - apply layout_failure_returns_no_table. left. vm_compute. reflexivity.
Defined.

(** ** The dash line *)

Lemma isspace_not_dash c : Py.isspace c = true -> is_dash c = false.
Proof.
  unfold is_dash. destruct (Ascii.eqb dash c) eqn:E; [|reflexivity].
  apply Ascii.eqb_eq in E. subst c. vm_compute. discriminate.
Qed.

Lemma Match_dash_group (s : str) i j :
  Re.Match s dash_group i j ->
  exists k,
    i < k < j /\
    (forall m, i <= m < k -> Re.at_ is_dash s m = true) /\
    (forall m, k <= m < j -> Re.at_ Py.isspace s m = true).
Proof.
  intros H. unfold dash_group in H. inv H.
  apply Match_plus_chr in H2, H5.
  exists k. intuition lia.
Qed.

Lemma Match_star_dash_group (s : str) i j :
  Re.Match s (Re.Star dash_group) i j ->
  i = j \/ (i < j /\ Re.at_ Py.isspace s (j - 1) = true).
Proof.
  intros H. remember (Re.Star dash_group) as r eqn:Er.
  induction H; try discriminate.
  - now left.
  - injection Er as ->. right.
    destruct (IHMatch2 eq_refl) as [<-|[Hlt Hsp]].
    + apply Match_dash_group in H. destruct H as (m & Hm & _ & Hws).
      split; [lia|]. apply Hws. lia.
    + split; [lia|assumption].
Qed.

(** The shape of what the dash-line pattern matches: it starts at the
    beginning of a line, is made of dashes and whitespace, holds a dash
    that whitespace follows, and ends in whitespace. *)
Lemma Match_dash_line (s : str) a e :
  Re.Match s dash_line_re a e ->
  Re.at_beginning_line s a = true /\
  a < e <= length s /\
  (forall m, a <= m < e -> Re.at_ dash_or_space s m = true) /\
  Re.at_ Py.isspace s (e - 1) = true /\
  (exists k, a <= k /\ S k < e /\
             Re.at_ is_dash s k = true /\ Re.at_ Py.isspace s (S k) = true).
Proof.
  intros H.
  assert (Hcls : forall m, a <= m < e -> Re.at_ dash_or_space s m = true).
  { apply (Match_classes dash_or_space s dash_line_re a e); [|assumption].
    unfold dash_or_space. simpl.
    repeat split; intros c Hc; rewrite Hc; auto using orb_true_r. }
  unfold dash_line_re, Re.Plus in H.
  inversion H as [| | | | ? ? ? a1 ? Hbol Hrest | | | |]; subst; clear H.
  inversion Hbol; subst; clear Hbol.
  inversion Hrest as [| | | | ? ? ? a2 ? Hsp Hgroups | | | |]; subst;
    clear Hrest.
  inversion Hgroups as [| | | | ? ? ? a3 ? Hg Hstar | | | |]; subst;
    clear Hgroups.
  apply Match_bounds in Hsp as [Hle _].
  apply Match_dash_group in Hg. destruct Hg as (m & Hm & Hd & Hw).
  apply Match_star_dash_group in Hstar.
  assert (Hlast : Re.at_ Py.isspace s (e - 1) = true).
  { destruct Hstar as [<-|[_ Hs]]; [apply Hw; lia|assumption]. }
  assert (He : a3 <= e) by (destruct Hstar; lia).
  split; [assumption|]. split; [|split; [assumption|split; [assumption|]]].
  - apply at_lt in Hlast. lia.
  - exists (m - 1). replace (S (m - 1)) with m by lia.
    repeat split; try lia; [apply Hd|apply Hw]; lia.
Qed.

(** *** Slices and tab replacement, character by character *)

Lemma nth_error_slice a b (s : str) k :
  nth_error (Py.slice a b s) k
  = if k <? b - a then nth_error s (a + k) else None.
Proof.
  unfold Py.slice. rewrite nth_error_firstn, nth_error_skipn. reflexivity.
Qed.

Lemma at_slice p a b (s : str) k :
  Re.at_ p (Py.slice a b s) k = (k <? b - a) && Re.at_ p s (a + k).
Proof.
  unfold Re.at_. rewrite nth_error_slice.
  destruct (k <? b - a); reflexivity.
Qed.

Lemma at_replace p x y (s : str) k :
  Re.at_ p (Py.replace x y s) k
  = Re.at_ (fun c => p (if Ascii.eqb c x then y else c)) s k.
Proof.
  unfold Re.at_, Py.replace. rewrite nth_error_map.
  destruct (nth_error s k); reflexivity.
Qed.

Lemma at_ext p q (s : str) k :
  (forall c, p c = q c) -> Re.at_ p s k = Re.at_ q s k.
Proof.
  intros H. unfold Re.at_. destruct (nth_error s k); auto.
Qed.

Lemma at_untab_dash (s : str) k :
  Re.at_ is_dash (Py.replace tab space s) k = Re.at_ is_dash s k.
Proof.
  rewrite at_replace. apply at_ext. intros c.
  destruct (Ascii.eqb c tab) eqn:E; [|reflexivity].
  apply Ascii.eqb_eq in E. subst c. reflexivity.
Qed.

Lemma at_untab_space (s : str) k :
  Re.at_ Py.isspace (Py.replace tab space s) k = Re.at_ Py.isspace s k.
Proof.
  rewrite at_replace. apply at_ext. intros c.
  destruct (Ascii.eqb c tab) eqn:E; [|reflexivity].
  apply Ascii.eqb_eq in E. subst c. reflexivity.
Qed.

Lemma length_slice_within a b (s : str) :
  a <= b <= length s -> length (Py.slice a b s) = b - a.
Proof.
  intros H. unfold Py.slice. rewrite length_firstn, length_skipn. lia.
Qed.

Lemma at_dash_or_space (s : str) k :
  Re.at_ dash_or_space s k = Re.at_ is_dash s k || Re.at_ Py.isspace s k.
Proof. unfold Re.at_, dash_or_space. destruct (nth_error s k); reflexivity. Qed.

Lemma at_space_not_dash (s : str) k :
  Re.at_ Py.isspace s k = true -> Re.at_ is_dash s k = false.
Proof.
  unfold Re.at_. destruct (nth_error s k); [apply isspace_not_dash|auto].
Qed.

(** *** The spans *)

Lemma find_positions_runs dash_line a b :
  In (a, b) (find_positions dash_line) <->
  Re.maximal_run is_dash dash_line a b.
Proof.
  split; [apply finditer_plus_chr_runs | apply finditer_plus_chr_complete].
Qed.

Lemma find_positions_sorted dash_line :
  StronglySorted (fun x y => snd x < fst y) (find_positions dash_line).
Proof. apply finditer_from_sorted. now left. Qed.

Section DashLineMatch.

Variables (content : str) (d_start d_end : nat).
Hypothesis Hsearch : Re.search dash_line_re content = Some (d_start, d_end).

Let dash_line : str := Py.replace tab space (Py.slice d_start d_end content).

Lemma dash_line_at_dash k :
  Re.at_ is_dash dash_line k
  = (k <? d_end - d_start) && Re.at_ is_dash content (d_start + k).
Proof. unfold dash_line. now rewrite at_untab_dash, at_slice. Qed.

Lemma dash_line_at_space k :
  Re.at_ Py.isspace dash_line k
  = (k <? d_end - d_start) && Re.at_ Py.isspace content (d_start + k).
Proof. unfold dash_line. now rewrite at_untab_space, at_slice. Qed.

(** A captured dash run ends before the end of the match, and a
    whitespace character follows it. *)
Lemma captured_run_before_space a b :
  In (a, b) (find_positions dash_line) ->
  d_start + b < d_end /\ Re.at_ Py.isspace content (d_start + b) = true.
Proof.
  intros Hin. apply find_positions_runs in Hin.
  destruct Hin as (Hab & Hall & Hend & _).
  apply search_some in Hsearch as (HM & _ & _).
  apply Match_dash_line in HM.
  destruct HM as (_ & Hr & Hcls & Hlast & _).
  assert (Hb1 : Re.at_ is_dash dash_line (b - 1) = true) by (apply Hall; lia).
  rewrite dash_line_at_dash in Hb1. apply andb_true_iff in Hb1.
  destruct Hb1 as [Hlt Hd]. apply Nat.ltb_lt in Hlt.
  assert (Hb : b < d_end - d_start).
  { destruct (Nat.eq_dec b (d_end - d_start)) as [->|Hne]; [|lia].
    apply at_space_not_dash in Hlast.
    replace (d_start + (d_end - d_start - 1)) with (d_end - 1) in Hd by lia.
    congruence. }
  split; [lia|].
  rewrite dash_line_at_dash in Hend.
  rewrite (proj2 (Nat.ltb_lt _ _) Hb) in Hend. simpl in Hend.
  specialize (Hcls (d_start + b)). rewrite at_dash_or_space, Hend in Hcls.
  apply Hcls. lia.
Qed.

(** Once the dash line is matched, there is a dash run in it. *)
Lemma find_positions_nonempty : find_positions dash_line <> [].
Proof.
  apply search_some in Hsearch as (HM & _ & _).
  apply Match_dash_line in HM.
  destruct HM as (_ & Hr & _ & _ & (k & Hk & Hk' & Hd & _)).
  destruct (finditer_from_covers dash_line is_dash
              (S (length dash_line)) 0 (k - d_start)) as (a & b & Hin & _).
  - lia.
  - lia.
  - rewrite dash_line_at_dash.
    replace (d_start + (k - d_start)) with k by lia. rewrite Hd.
    rewrite (proj2 (Nat.ltb_lt _ _)) by lia. reflexivity.
  - intros E. unfold find_positions, Re.finditer, dash_run_re, dash_chr in E.
    rewrite E in Hin. contradiction.
Qed.

End DashLineMatch.

(** Without a dash that a whitespace character follows, there is no
    dash line. *)
Lemma no_dash_before_space_no_match (content : str) :
  (forall k, Re.at_ is_dash content k = true ->
             Re.at_ Py.isspace content (S k) = false) ->
  Re.search dash_line_re content = None.
Proof.
  intros Hno.
  destruct (Re.search dash_line_re content) as [[a e]|] eqn:E;
    [|reflexivity].
  apply search_some in E as (HM & _ & _).
  apply Match_dash_line in HM.
  destruct HM as (_ & _ & _ & _ & (k & _ & _ & Hd & Hs)).
  rewrite (Hno k Hd) in Hs. discriminate.
Qed.

(** *** The dash-line match is the longest one from its start *)

Lemma ends_dash_group (s : str) i f0 tl :
  Re.ends s dash_group i = f0 :: tl ->
  exists d,
    i < d < f0 /\
    (forall m, i <= m < d -> Re.at_ is_dash s m = true) /\
    (forall m, d <= m < f0 -> Re.at_ Py.isspace s m = true) /\
    Re.at_ Py.isspace s f0 = false.
Proof.
  intros E.
  assert (HM : Re.Match s dash_group i f0).
  { apply ends_sound. rewrite E. now left. }
  apply Match_dash_group in HM. destruct HM as (m0 & Hm0 & Hd0 & Hw0).
  destruct (plus_chr_ends_head s is_dash i) as (d & tl1 & E1 & Hid & Hd & Hde).
  { apply Hd0. lia. }
  assert (m0 = d) as ->.
  { destruct (lt_eq_lt_dec m0 d) as [[Hlt|Heq]|Hgt]; [|assumption|].
    - assert (Re.at_ Py.isspace s m0 = true) as Hs by (apply Hw0; lia).
      apply at_space_not_dash in Hs. rewrite Hd in Hs by lia. discriminate.
    - rewrite Hd0 in Hde by lia. discriminate. }
  destruct (plus_chr_ends_head s Py.isspace d) as (f & tl2 & E2 & Hdf & Hw & Hwe).
  { apply Hw0. lia. }
  assert (f0 = f) as ->.
  { unfold dash_group in E. rewrite ends_seq in E.
    unfold dash_chr, ws in E. rewrite E1 in E. cbn [flat_map] in E.
    rewrite E2 in E. now injection E. }
  exists d. repeat split; try assumption; lia.
Qed.

(** Every match of one group ends at or before the first one tried, and
    on whitespace if it ends before. *)
Lemma Match_dash_group_head (s : str) i f0 tl k :
  Re.ends s dash_group i = f0 :: tl ->
  Re.Match s dash_group i k ->
  i < k <= f0 /\ (k < f0 -> Re.at_ Py.isspace s k = true).
Proof.
  intros E HM. apply ends_dash_group in E.
  destruct E as (d & Hd & Hdash & Hws & Hend).
  apply Match_dash_group in HM. destruct HM as (m & Hm & Hdm & Hwm).
  assert (m = d) as ->.
  { destruct (lt_eq_lt_dec m d) as [[Hlt|Heq]|Hgt]; [|assumption|].
    - assert (Re.at_ Py.isspace s m = true) as Hs by (apply Hwm; lia).
      apply at_space_not_dash in Hs. rewrite Hdash in Hs by lia.
      discriminate.
    - assert (Re.at_ Py.isspace s d = true) as Hs by (apply Hws; lia).
      apply at_space_not_dash in Hs. rewrite Hdm in Hs by lia.
      discriminate. }
  assert (k <= f0).
  { destruct (le_lt_dec k f0); [assumption|].
    rewrite Hwm in Hend by lia. discriminate. }
  split; [lia|]. intros Hlt. apply Hws. lia.
Qed.

Lemma Match_dash_group_starts_with_dash (s : str) i k :
  Re.Match s dash_group i k -> Re.at_ is_dash s i = true.
Proof.
  intros HM. apply Match_dash_group in HM.
  destruct HM as (m & Hm & Hd & _). apply Hd. lia.
Qed.

Lemma Match_star_at_space (s : str) i e :
  Re.at_ Py.isspace s i = true ->
  Re.Match s (Re.Star dash_group) i e -> e = i.
Proof.
  intros Hs HM. inversion HM as [| | | | | | | |? ? k ? Hg]; subst.
  - reflexivity.
  - apply Match_dash_group_starts_with_dash in Hg.
    apply at_space_not_dash in Hs. congruence.
Qed.

Lemma star_dash_group_head (s : str) n :
  forall i, length s - i < n ->
  exists h tl,
    Re.ends s (Re.Star dash_group) i = h :: tl /\
    forall e, Re.Match s (Re.Star dash_group) i e -> e <= h.
Proof.
  induction n as [|n IH]; intros i Hn; [lia|].
  rewrite ends_star_unfold.
  destruct (Re.ends s dash_group i) as [|f0 tl0] eqn:E.
  - exists i, []. split; [reflexivity|].
    intros e HM. inversion HM as [| | | | | | | |? ? k ? Hg]; subst.
    + lia.
    + apply ends_complete in Hg. rewrite E in Hg. contradiction.
  - assert (Hf0 : Re.Match s dash_group i f0).
    { apply ends_sound. rewrite E. now left. }
    destruct (Match_dash_group_head s i f0 tl0 f0 E Hf0) as [Hif0 _].
    apply Match_bounds in Hf0 as [_ Hb].
    destruct (IH f0) as (h & tl & Eh & Hmax); [lia|].
    assert (Hfh : f0 <= h) by (apply Hmax; constructor).
    cbn [flat_map]. rewrite (proj2 (Nat.ltb_lt i f0)) by lia.
    rewrite Eh. eexists h, _. split; [reflexivity|].
    intros e HM. inversion HM as [| | | | | | | |? ? k ? Hg Hik Hrest]; subst.
    + lia.
    + destruct (Match_dash_group_head s i f0 tl0 k E Hg) as [Hk Hsp].
      destruct (Nat.eq_dec k f0) as [->|Hne].
      * now apply Hmax.
      * apply Match_star_at_space in Hrest; [lia|]. apply Hsp. lia.
Qed.

Lemma plus_dash_group_head (s : str) i e :
  Re.Match s (Re.Plus dash_group) i e ->
  exists h tl,
    Re.ends s (Re.Plus dash_group) i = h :: tl /\ e <= h.
Proof.
  intros HM. unfold Re.Plus in HM.
  inversion HM as [| | | |? ? ? k ? Hg Hrest| | | |]; subst.
  destruct (Re.ends s dash_group i) as [|f0 tl0] eqn:E.
  { apply ends_complete in Hg. rewrite E in Hg. contradiction. }
  destruct (star_dash_group_head s (S (length s - f0)) f0)
    as (h & tl & Eh & Hmax); [lia|].
  exists h, (tl ++ flat_map (Re.ends s (Re.Star dash_group)) tl0).
  split.
  - rewrite ends_plus, E. cbn [flat_map]. rewrite Eh. reflexivity.
  - destruct (Match_dash_group_head s i f0 tl0 k E Hg) as [Hk Hsp].
    destruct (Nat.eq_dec k f0) as [->|Hne].
    + now apply Hmax.
    + apply Match_star_at_space in Hrest; [|apply Hsp; lia].
      assert (f0 <= h) by (apply Hmax; constructor). lia.
Qed.

Lemma flat_map_all_nil {A B} (f : A -> list B) l :
  (forall x, In x l -> f x = []) -> flat_map f l = [].
Proof.
  induction l as [|x l IH]; intros H; [reflexivity|].
  simpl. rewrite H by now left. apply IH. intros y Hy. apply H. now right.
Qed.

(** Of the matches of the dash-line pattern that start at one place,
    the matcher reports the longest. *)
Lemma dash_line_longest (s : str) a e tl :
  Re.ends s dash_line_re a = e :: tl ->
  forall e', Re.Match s dash_line_re a e' -> e' <= e.
Proof.
  intros E e' HM. unfold dash_line_re in HM.
  inversion HM as [| | | |? ? ? a1 ? Hbol Hrest| | | |]; subst.
  inversion Hbol as [| |? Hb| | | | | |]; subst.
  inversion Hrest as [| | | |? ? ? w' ? Hsp Hplus| | | |]; subst.
  (* the whitespace before the dashes is taken whole *)
  destruct (star_chr_head s Py.isspace (S (length s - a1)) a1)
    as (w & tlw & Ew & Haw & Hws & Hwe); [lia|].
  assert (Hdash : Re.at_ is_dash s w' = true).
  { unfold Re.Plus in Hplus.
    inversion Hplus as [| | | |? ? ? k ? Hg _| | | |]; subst.
    now apply Match_dash_group_starts_with_dash in Hg. }
  assert (w' = w) as ->.
  { destruct (lt_eq_lt_dec w' w) as [[Hlt|Heq]|Hgt]; [|assumption|].
    - apply Match_bounds in Hsp as [Hle _].
      assert (Re.at_ Py.isspace s w' = true) as Hs by (apply Hws; lia).
      apply at_space_not_dash in Hs. congruence.
    - apply Match_classes with (P := Py.isspace) (k := w) in Hsp;
        [| simpl; auto | lia].
      congruence. }
  destruct (plus_dash_group_head s w e' Hplus) as (h & tlh & Eh & Hle).
  unfold dash_line_re in E. rewrite ends_seq, ends_bol, Hb in E.
  cbn [flat_map] in E. rewrite ends_seq in E. unfold ws in E.
  rewrite ends_star_eq, Ew in E. cbn [flat_map] in E.
  rewrite Eh in E. injection E as <- _. assumption.
Qed.

Lemma search_head (s : str) r a e :
  Re.search r s = Some (a, e) -> exists tl, Re.ends s r a = e :: tl.
Proof. intros H. now apply search_from_some in H. Qed.

Lemma find_dash_line_some content d_start d_end :
  Re.search dash_line_re content = Some (d_start, d_end) ->
  find_dash_line content
  = Some (Py.replace tab space (Py.slice d_start d_end content), d_end).
Proof. intros H. unfold find_dash_line. now rewrite H. Qed.

(** C4 (amended): separator detection selects the first place of the
    document, at the start of a line, where optional whitespace followed
    by one or more runs of dashes, each followed by at least one
    whitespace character, can be matched, and takes the longest such
    match from there (anywhere in the text, not necessarily next to the
    header); the matched text is made of dashes and whitespace and ends
    in whitespace; every maximal contiguous run of dashes of the matched
    text yields one span (run_start, run_end), counted from the start of
    the match, in left-to-right order; for the dash line
    "---- --- ------", also when a report holds it followed by a line
    break, the spans are exactly (0,4), (5,8), (9,15). *)
Theorem separator_detection :
  (forall content d_start d_end,
      Re.search dash_line_re content = Some (d_start, d_end) ->
      let dash_line :=
        Py.replace tab space (Py.slice d_start d_end content) in
      find_dash_line content = Some (dash_line, d_end)
      /\ Re.at_beginning_line content d_start = true
      /\ d_start < d_end <= length content
      /\ Re.Match content dash_line_re d_start d_end
      /\ (forall a e, a < d_start -> ~ Re.Match content dash_line_re a e)
      /\ (forall e, Re.Match content dash_line_re d_start e -> e <= d_end)
      /\ (forall k, d_start <= k < d_end ->
                    Re.at_ dash_or_space content k = true)
      /\ Re.at_ Py.isspace content (d_end - 1) = true
      /\ (forall a b,
            In (a, b) (find_positions dash_line) <->
            Re.maximal_run is_dash dash_line a b)
      /\ StronglySorted (fun x y => snd x < fst y)
           (find_positions dash_line))
  /\ find_positions (txt "---- --- ------") = [(0, 4); (5, 8); (9, 15)]
  /\ option_map (fun d => find_positions (fst d))
       (find_dash_line separator_example)
     = Some [(0, 4); (5, 8); (9, 15)].
Proof.
  split; [|split; vm_compute; reflexivity].
  intros content d_start d_end H dash_line.
  pose proof (search_some _ _ _ _ H) as (HM & _ & Hfirst).
  pose proof (Match_dash_line _ _ _ HM) as (Hb & Hr & Hcls & Hlast & _).
  destruct (search_head _ _ _ _ H) as [tl Htl].
  split; [now apply find_dash_line_some|].
  repeat (split; [assumption|]).
  split; [exact (dash_line_longest _ _ _ _ Htl)|].
  repeat (split; [assumption|]).
  split; [apply find_positions_runs | apply find_positions_sorted].
Qed.

Lemma separator_detection_witness :
  Re.search dash_line_re separator_example = Some (7, 23)
  /\ find_dash_line separator_example
     = Some (Py.replace tab space (Py.slice 7 23 separator_example), 23).
Proof.
  split; [vm_compute; reflexivity|].
  apply (proj1 separator_detection separator_example 7 23).
  vm_compute. reflexivity.
Defined.

(** C4 as stated fails: the report [separator_at_end] has the two lines
    "A B C " and "---- --- ------"; the second is its first line made of
    dash runs, and (9,15) is a maximal run of dashes of it, yet the
    detected spans are (0,4) and (5,8) only. *)
Lemma separator_at_end_loses_last_run :
  Py.split newline separator_at_end = [txt "A B C "; txt "---- --- ------"]
  /\ Re.maximal_run is_dash (txt "---- --- ------") 9 15
  /\ option_map (fun d => find_positions (fst d))
       (find_dash_line separator_at_end)
     = Some [(0, 4); (5, 8)].
Proof.
  split; [vm_compute; reflexivity|]. split; [|vm_compute; reflexivity].
  unfold Re.maximal_run. split; [lia|]. split; [|split].
  - intros k Hk.
    assert (k = 9 \/ k = 10 \/ k = 11 \/ k = 12 \/ k = 13 \/ k = 14)
      as [->|[->|[->|[->|[->| ->]]]]] by lia; reflexivity.
  - reflexivity.
  - right. reflexivity.
Qed.

(** C10: a dash run is captured only when a whitespace character
    follows it: every detected span ends before the end of the matched
    dash line, hence before the end of the document, and on a whitespace
    character; a document in which no dash is followed by whitespace has
    no dash line, so no table is returned, and the failure reported is
    that of the dash line once a header was found; the report that ends
    with the line "---- --- ------" loses its last run, and the report
    whose only dashes are one run at its end is rejected for its dash
    line. *)
Theorem dash_run_needs_following_whitespace :
  (forall content d_start d_end a b,
      Re.search dash_line_re content = Some (d_start, d_end) ->
      In (a, b)
        (find_positions
           (Py.replace tab space (Py.slice d_start d_end content))) ->
      d_start + b < d_end /\ d_end <= length content /\
      Re.at_ Py.isspace content (d_start + b) = true)
  /\ (forall content,
        (forall k, Re.at_ is_dash content k = true ->
                   Re.at_ Py.isspace content (S k) = false) ->
        find_dash_line content = None /\
        snd (parse_rpt_file content) = Returns None /\
        (find_header_line content <> None ->
         parse_rpt_file content = ([NoDashLine], Returns None)))
  /\ option_map (fun d => find_positions (fst d))
       (find_dash_line separator_at_end)
     = Some [(0, 4); (5, 8)]
  /\ parse_rpt_file single_run_at_end = ([NoDashLine], Returns None).
Proof.
  split; [|split; [|split; vm_compute; reflexivity]].
  - intros content d_start d_end a b H Hin.
    destruct (captured_run_before_space _ _ _ H a b Hin) as [Hlt Hsp].
    apply search_some in H as (HM & _ & _).
    apply Match_dash_line in HM. destruct HM as (_ & Hr & _).
    repeat split; [assumption|lia|assumption].
  - intros content Hno.
    apply no_dash_before_space_no_match in Hno.
    assert (E : find_dash_line content = None).
    { unfold find_dash_line. now rewrite Hno. }
    split; [assumption|]. unfold parse_rpt_file. rewrite E.
    destruct (find_header_line content); split; try reflexivity.
    intros Hne. now contradiction Hne.
Qed.

Lemma dash_run_needs_following_whitespace_witness :
  Re.search dash_line_re separator_at_end = Some (7, 16)
  /\ In (5, 8)
       (find_positions
          (Py.replace tab space (Py.slice 7 16 separator_at_end)))
  /\ 7 + 8 < 16 /\ 16 <= length separator_at_end
  /\ Re.at_ Py.isspace separator_at_end (7 + 8) = true.
Proof.
  split; [vm_compute; reflexivity|].
  split; [vm_compute; tauto|].
  apply (proj1 dash_run_needs_following_whitespace separator_at_end 7 16 5 8).
  - vm_compute. reflexivity.
  - vm_compute. tauto.
Defined.

(** ** The row-count footer *)

Lemma footer_anchor_free : Re.anchor_free footer_re.
Proof. cbv [footer_re footer_body Re.anchor_free Re.Lit Re.Plus Re.Opt
            digit ws txt list_ascii_of_string fold_right]. tauto. Qed.

Lemma eqb_not_close x c :
  is_close x = false -> Ascii.eqb x c = true -> negb (is_close c) = true.
Proof. intros Hx E. apply Ascii.eqb_eq in E. subst c. now rewrite Hx. Qed.

Lemma footer_body_without_close :
  Re.classes_within (fun c => negb (is_close c)) footer_body.
Proof.
  cbv [footer_body Re.classes_within Re.Lit Re.Plus Re.Opt digit ws txt
       list_ascii_of_string fold_right].
  repeat split; intros c Hc;
    try (apply (eqb_not_close _ _ eq_refl Hc); fail);
    destruct (is_close c) eqn:E; try reflexivity;
    unfold is_close in E; apply Ascii.eqb_eq in E; subst c;
    discriminate Hc.
Qed.

(** A footer match ends with its only closing parenthesis. *)
Lemma Match_footer (s : str) a e :
  Re.Match s footer_re a e ->
  a < e /\ Re.at_ is_close s (e - 1) = true /\
  (forall k, a <= k < e - 1 -> Re.at_ is_close s k = false).
Proof.
  intros HM. unfold footer_re in HM.
  inversion HM as [| | | |? ? ? k ? Hbody Hclose| | | |]; subst.
  inversion Hclose as [|? ? c Hc Hp| | | | | | |]; subst.
  apply Match_bounds in Hbody as Hb. replace (S k - 1) with k by lia.
  split; [lia|]. split.
  - unfold Re.at_. now rewrite Hc.
  - intros m Hm.
    pose proof (Match_classes _ _ _ _ _ footer_body_without_close Hbody m Hm)
      as Hn.
    unfold Re.at_ in *. destruct (nth_error s m); [|reflexivity].
    now apply negb_true_iff.
Qed.

(** The text before the first footer holds no footer. *)
Lemma no_footer_before_first (d : str) start stop :
  Re.search footer_re d = Some (start, stop) ->
  Re.search footer_re (firstn start d) = None.
Proof.
  intros H. apply search_some in H as (_ & _ & Hfirst).
  destruct (Re.search footer_re (firstn start d)) as [[a e]|] eqn:E;
    [|reflexivity].
  exfalso. apply search_some in E as (HM & _ & _).
  pose proof (Match_footer _ _ _ HM) as (Hae & _ & _).
  pose proof (Match_bounds _ _ _ _ HM) as [_ Hb]. specialize (Hb Hae).
  rewrite length_firstn in Hb.
  apply (Hfirst a e); [lia|].
  apply Match_transfer with (s := firstn start d);
    [apply footer_anchor_free| |assumption].
  rewrite firstn_firstn. f_equal. lia.
Qed.

(** What follows the first footer does not move it. *)
Lemma first_footer_stable (d d' : str) start stop :
  Re.search footer_re d = Some (start, stop) ->
  firstn stop d' = firstn stop d ->
  exists stop', Re.search footer_re d' = Some (start, stop').
Proof.
  intros H Heq. apply search_some in H as (HM & _ & Hfirst).
  pose proof (Match_footer _ _ _ HM) as (Hlt & Hclose & _).
  assert (HM' : Re.Match d' footer_re start stop).
  { apply Match_transfer with (s := d);
      [apply footer_anchor_free|now symmetry|assumption]. }
  assert (Hlen : start <= length d').
  { apply Match_bounds in HM' as [_ Hb]. specialize (Hb Hlt). lia. }
  destruct (search_finds _ _ _ _ Hlen HM') as (a & e & E & Hle).
  destruct (Nat.eq_dec a start) as [->|Hne]; [eauto|]. exfalso.
  apply search_some in E as (Ha & _ & _).
  pose proof (Match_footer _ _ _ Ha) as (Hae & _ & Hnone).
  destruct (le_lt_dec e stop) as [Hes|Hes].
  - apply (Hfirst a e); [lia|].
    apply Match_transfer with (s := d');
      [apply footer_anchor_free| |assumption].
    apply firstn_eq_le with (j := stop); assumption.
  - specialize (Hnone (stop - 1)).
    unfold Re.at_ in Hnone, Hclose.
    rewrite (firstn_eq_nth_error d' d stop (stop - 1) Heq) in Hnone by lia.
    rewrite Hclose in Hnone. discriminate Hnone. lia.
Qed.

Lemma truncate_at_footer_some (d : str) start stop :
  Re.search footer_re d = Some (start, stop) ->
  truncate_at_footer d = firstn start d.
Proof. intros H. unfold truncate_at_footer. now rewrite H. Qed.

Lemma truncate_at_footer_none (d : str) :
  Re.search footer_re d = None -> truncate_at_footer d = d.
Proof. intros H. unfold truncate_at_footer. now rewrite H. Qed.

(** C7 (the code differs): [footer_report_with_tail] is
    [footer_report] with the lines "foo " and an empty one added after
    its footer.  Both data sections start at offset 21, and their first
    footer match is the same one, from offset 8 to offset 24 of the data
    section, where [footer_report] ends.  Yet the one row of the first
    report is 1, "" and the one row of the second is 1, "", null: the
    header match of the second runs on to the end of the added text,
    which derives a third column name, and the row is padded to it.
    Text after the footer has added a cell. *)
Theorem text_after_footer_changes_rows :
  firstn (length footer_report) footer_report_with_tail = footer_report
  /\ option_map snd (find_dash_line footer_report) = Some 21
  /\ option_map snd (find_dash_line footer_report_with_tail) = Some 21
  /\ Re.search footer_re (Py.slice_from 21 footer_report) = Some (8, 24)
  /\ Re.search footer_re (Py.slice_from 21 footer_report_with_tail)
     = Some (8, 24)
  /\ 21 + 24 = length footer_report
  /\ Re.search header_re footer_report = Some (0, 10)
  /\ Re.search header_re footer_report_with_tail = Some (0, 51)
  /\ snd (parse_rpt_file footer_report)
     = Returns (Some (Table [txt "ID"; txt "Column2"]
                       [[Some (txt "1"); Some []]]))
  /\ snd (parse_rpt_file footer_report_with_tail)
     = Returns (Some (Table
         [txt "ID"; txt "Column2";
          unlines ["---- ----"; "1    Al"; "(1 row affected)"; "foo"]%string]
         [[Some (txt "1"); Some []; None]])).
Proof. repeat split; vm_compute; reflexivity. Qed.

(** X9: in the row loop, with the spans and the number of column names
    given, the first footer match cuts the data section at its start:
    the rows are those of the text before it, there is no footer match
    further left, and two data sections that agree up to the end of that
    first footer give the same rows, whatever text follows. *)
Theorem footer_truncates_data_section
  positions n_columns data_section start stop :
  Re.search footer_re data_section = Some (start, stop) ->
  truncate_at_footer data_section = Py.slice_to start data_section
  /\ (forall a e, a < start -> ~ Re.Match data_section footer_re a e)
  /\ extract_rows positions n_columns data_section
     = extract_rows positions n_columns (Py.slice_to start data_section)
  /\ (forall other,
        Py.slice_to stop other = Py.slice_to stop data_section ->
        extract_rows positions n_columns other
        = extract_rows positions n_columns data_section).
Proof.
  intros H. unfold Py.slice_to.
  pose proof (truncate_at_footer_some _ _ _ H) as Ht.
  split; [assumption|]. split; [apply (search_some _ _ _ _ H)|]. split.
  - unfold extract_rows. rewrite Ht.
    now rewrite (truncate_at_footer_none _ (no_footer_before_first _ _ _ H)).
  - intros other Heq.
    destruct (first_footer_stable _ _ _ _ H Heq) as [stop' H'].
    unfold extract_rows.
    rewrite Ht, (truncate_at_footer_some _ _ _ H').
    f_equal. f_equal. f_equal.
    apply firstn_eq_le with (j := stop); [assumption|].
    apply search_some in H as (HM & _ & _).
    apply Match_bounds in HM. lia.
Qed.

Lemma footer_truncates_data_section_witness :
  Re.search footer_re footer_example = Some (11, 27)
  /\ extract_rows [(0, 4); (5, 9)] 2 footer_example
     = extract_rows [(0, 4); (5, 9)] 2 (Py.slice_to 11 footer_example).
Proof.
  assert (H : Re.search footer_re footer_example = Some (11, 27))
    by (vm_compute; reflexivity).
  split; [exact H|].
  exact (proj1 (proj2 (proj2
    (footer_truncates_data_section [(0, 4); (5, 9)] 2 footer_example
       11 27 H)))).
Defined.

(** * Further properties of the parser *)

(** ** Trimming *)

Lemma dropwhile_split p (s : str) :
  exists pre, s = pre ++ Py.dropwhile p s /\ Forall (fun c => p c = true) pre.
Proof.
  induction s as [|c s IH]; simpl.
  - exists []. split; [reflexivity|constructor].
  - destruct (p c) eqn:E.
    + destruct IH as (pre & Heq & Hall). exists (c :: pre).
      split; [simpl; now f_equal|now constructor].
    + exists []. split; [reflexivity|constructor].
Qed.

Lemma dropwhile_head p (s : str) c t :
  Py.dropwhile p s = c :: t -> p c = false.
Proof.
  induction s as [|x s IH]; simpl; [discriminate|].
  destruct (p x) eqn:E; [assumption|].
  intros H. injection H as <- _. assumption.
Qed.

Lemma dropwhile_fixed p (s : str) c t :
  s = c :: t -> p c = false -> Py.dropwhile p s = s.
Proof. intros -> H. simpl. now rewrite H. Qed.

Lemma dropwhile_all p (s : str) :
  Forall (fun c => p c = true) s -> Py.dropwhile p s = [].
Proof.
  induction 1 as [|c s Hc _ IH]; simpl; [reflexivity|]. now rewrite Hc.
Qed.

Lemma dropwhile_app_all p (pre s : str) :
  Forall (fun c => p c = true) pre ->
  Py.dropwhile p (pre ++ s) = Py.dropwhile p s.
Proof.
  induction 1 as [|c pre Hc _ IH]; simpl; [reflexivity|]. now rewrite Hc.
Qed.

(** Trimming takes whitespace off both ends and nothing else. *)
Lemma strip_split (s : str) :
  exists pre post,
    s = pre ++ Py.strip s ++ post /\
    Forall (fun c => Py.isspace c = true) pre /\
    Forall (fun c => Py.isspace c = true) post.
Proof.
  unfold Py.strip, Py.rstrip, Py.lstrip.
  destruct (dropwhile_split Py.isspace s) as (pre & Hs & Hpre).
  set (m := Py.dropwhile Py.isspace s) in *.
  destruct (dropwhile_split Py.isspace (rev m)) as (post & Hm & Hpost).
  exists pre, (rev post). split; [|split; [assumption|now apply Forall_rev]].
  rewrite Hs at 1. f_equal.
  rewrite <- (rev_involutive m), Hm at 1.
  now rewrite rev_app_distr.
Qed.

Lemma strip_incl (s : str) c : In c (Py.strip s) -> In c s.
Proof.
  intros H. destruct (strip_split s) as (pre & post & Heq & _).
  rewrite Heq. apply in_or_app. right. apply in_or_app. now left.
Qed.

Lemma length_strip (s : str) : length (Py.strip s) <= length s.
Proof.
  destruct (strip_split s) as (pre & post & Heq & _).
  rewrite Heq at 2. rewrite !length_app. lia.
Qed.

Lemma strip_first (s : str) c t :
  Py.strip s = c :: t -> Py.isspace c = false.
Proof.
  unfold Py.strip, Py.rstrip, Py.lstrip. intros H.
  set (m := Py.dropwhile Py.isspace s) in *.
  destruct (dropwhile_split Py.isspace (rev m)) as (post & Hm & Hpost).
  assert (Hm' : m = rev (Py.dropwhile Py.isspace (rev m)) ++ rev post).
  { rewrite <- (rev_involutive m) at 1. rewrite Hm at 1.
    now rewrite rev_app_distr. }
  rewrite H in Hm'. simpl in Hm'.
  now apply (dropwhile_head Py.isspace s c (t ++ rev post)).
Qed.

Lemma strip_last (s : str) c t :
  rev (Py.strip s) = c :: t -> Py.isspace c = false.
Proof.
  unfold Py.strip, Py.rstrip. rewrite rev_involutive.
  apply dropwhile_head.
Qed.

(** Trimming twice is trimming once. *)
Lemma strip_trimmed (s : str) : trimmed (Py.strip s).
Proof.
  unfold trimmed. destruct (Py.strip s) as [|c t] eqn:E; [reflexivity|].
  pose proof (strip_first s c t E) as Hc.
  unfold Py.strip at 1, Py.lstrip. cbn [Py.dropwhile]. rewrite Hc.
  unfold Py.rstrip.
  destruct (rev (c :: t)) as [|x r] eqn:Er.
  - apply (f_equal (@length ascii)) in Er. rewrite length_rev in Er.
    discriminate.
  - assert (Hx : Py.isspace x = false).
    { apply (strip_last s x r). now rewrite E. }
    cbn [Py.dropwhile]. rewrite Hx, <- Er. apply rev_involutive.
Qed.

Lemma strip_nonempty (s : str) c :
  In c s -> Py.isspace c = false -> Py.strip s <> [].
Proof.
  intros Hin Hc E. destruct (strip_split s) as (pre & post & Heq & Hpre & Hpost).
  rewrite E in Heq. simpl in Heq. rewrite Heq in Hin.
  apply in_app_or in Hin. rewrite Forall_forall in Hpre, Hpost.
  destruct Hin as [Hin|Hin]; [apply Hpre in Hin|apply Hpost in Hin];
    congruence.
Qed.

Lemma strip_all_space (s : str) :
  Forall (fun c => Py.isspace c = true) s -> Py.strip s = [].
Proof.
  intros H. unfold Py.strip, Py.lstrip. now rewrite dropwhile_all.
Qed.

Lemma strip_app_space (pre s : str) :
  Forall (fun c => Py.isspace c = true) pre ->
  Py.strip (pre ++ s) = Py.strip s.
Proof.
  intros H. unfold Py.strip, Py.lstrip. now rewrite dropwhile_app_all.
Qed.

(** ** What a cell can hold *)

Lemma split_no_sep sep (s : str) l : In l (Py.split sep s) -> ~ In sep l.
Proof.
  revert l. induction s as [|c s IH]; simpl; intros l Hin.
  - destruct Hin as [<-|[]]. intros [].
  - destruct (Ascii.eqb c sep) eqn:E.
    + destruct Hin as [<-|Hin]; [intros []|now apply IH].
    + destruct (Py.split sep s) as [|h r] eqn:Es.
      * destruct Hin as [<-|[]]. intros [->|[]].
        rewrite Ascii.eqb_refl in E. discriminate.
      * destruct Hin as [<-|Hin].
        -- intros [->|Hh].
           ++ rewrite Ascii.eqb_refl in E. discriminate.
           ++ apply (IH h); [now left|assumption].
        -- apply IH. now right.
Qed.

Lemma replace_tab_no_tab (s : str) : ~ In tab (Py.replace tab space s).
Proof.
  unfold Py.replace. intros H. apply in_map_iff in H.
  destruct H as (c & Hc & _).
  destruct (Ascii.eqb c tab) eqn:E; [discriminate|].
  subst c. rewrite Ascii.eqb_refl in E. discriminate.
Qed.

Lemma replace_tab_newline (s : str) :
  In newline (Py.replace tab space s) -> In newline s.
Proof.
  unfold Py.replace. intros H. apply in_map_iff in H.
  destruct H as (c & Hc & Hin).
  destruct (Ascii.eqb c tab) eqn:E; [discriminate|]. now subst c.
Qed.

Lemma firstn_incl {A} n (l : list A) x : In x (firstn n l) -> In x l.
Proof.
  intros H. rewrite <- (firstn_skipn n l). apply in_or_app. now left.
Qed.

Lemma skipn_incl {A} n (l : list A) x : In x (skipn n l) -> In x l.
Proof.
  intros H. rewrite <- (firstn_skipn n l). apply in_or_app. now right.
Qed.

Lemma slice_incl a b (s : str) c : In c (Py.slice a b s) -> In c s.
Proof. intros H. unfold Py.slice in H. eauto using firstn_incl, skipn_incl. Qed.

Lemma null_if_NULL_some value v :
  null_if_NULL value = Some v -> v = value /\ v <> txt "NULL".
Proof.
  unfold null_if_NULL. destruct (Py.eqb value (txt "NULL")) eqn:E;
    [discriminate|].
  intros H. injection H as <-. split; [reflexivity|].
  intros Hv. apply eqb_eq in Hv. congruence.
Qed.

(** A cell that is not null is the trimmed text of a part of the line. *)
Lemma row_data_cell positions line v :
  In (Some v) (row_data positions line) ->
  v <> txt "NULL" /\
  exists part, v = Py.strip part /\ forall c, In c part -> In c line.
Proof.
  unfold row_data. intros [H|H].
  - unfold first_cell in H. apply null_if_NULL_some in H as [-> Hn].
    split; [assumption|]. eexists. split; [reflexivity|].
    unfold Py.slice_to. intros c. apply firstn_incl.
  - apply in_app_or in H. destruct H as [H|H].
    + apply in_map_iff in H. destruct H as (j & Hj & _).
      unfold middle_cell in Hj.
      destruct (snd (span_at positions (j - 1)) <? length line);
        [|discriminate].
      apply null_if_NULL_some in Hj as [-> Hn].
      split; [assumption|]. eexists. split; [reflexivity|].
      intros c. apply slice_incl.
    + unfold trailing_cell in H.
      destruct (snd (last positions (0, 0)) <? length line);
        [|contradiction].
      destruct H as [H|[]]. apply null_if_NULL_some in H as [-> Hn].
      split; [assumption|]. eexists. split; [reflexivity|].
      unfold Py.slice_from. intros c. apply skipn_incl.
Qed.

Lemma pad_row_cell n_columns row (v : str) :
  In (Some v) (pad_row n_columns row) -> In (Some v) row.
Proof.
  unfold pad_row. intros H. apply in_app_or in H.
  destruct H as [H|H]; [assumption|].
  apply repeat_spec in H. discriminate.
Qed.

(** X1: no cell of a returned row is the text NULL, starts or ends with
    whitespace, or holds a tab or a line break. *)
Theorem cells_are_clean positions n_columns data_section row v :
  In row (extract_rows positions n_columns data_section) ->
  In (Some v) row ->
  v <> txt "NULL" /\ trimmed v /\ ~ In tab v /\ ~ In newline v.
Proof.
  intros Hrow Hv. apply in_extract_rows in Hrow.
  destruct Hrow as (line & Hline & Hp).
  apply process_line_some in Hp. destruct Hp as (_ & _ & -> & _).
  apply pad_row_cell, row_data_cell in Hv.
  destruct Hv as (Hnull & part & -> & Hpart).
  split; [assumption|]. split; [apply strip_trimmed|]. split.
  - intros H. apply strip_incl, Hpart in H.
    now apply replace_tab_no_tab in H.
  - intros H. apply strip_incl, Hpart, replace_tab_newline in H.
    now apply (split_no_sep _ _ _ Hline).
Qed.

Lemma cells_are_clean_witness :
  In [Some (txt "1"); Some []; Some (txt "e")]
     (extract_rows [(0, 4); (5, 9)] 2 footer_example)
  /\ In (Some (txt "e")) [Some (txt "1"); Some []; Some (txt "e")]
  /\ txt "e" <> txt "NULL" /\ trimmed (txt "e")
  /\ ~ In tab (txt "e") /\ ~ In newline (txt "e").
Proof.
  assert (H1 : In [Some (txt "1"); Some []; Some (txt "e")]
                 (extract_rows [(0, 4); (5, 9)] 2 footer_example))
    by (vm_compute; left; reflexivity).
  assert (H2 : In (Some (txt "e")) [Some (txt "1"); Some []; Some (txt "e")])
    by (right; right; left; reflexivity).
  split; [exact H1|]. split; [exact H2|].
  exact (cells_are_clean [(0, 4); (5, 9)] 2 footer_example _ _ H1 H2).
Defined.

(** ** Building matches *)

Lemma Match_star_chr_intro (s : str) p n :
  forall i j,
    j - i <= n -> i <= j ->
    (forall k, i <= k < j -> Re.at_ p s k = true) ->
    Re.Match s (Re.Star (Re.Chr p)) i j.
Proof.
  induction n as [|n IH]; intros i j Hn Hij Hall.
  - assert (i = j) as -> by lia. constructor.
  - destruct (Nat.eq_dec i j) as [->|Hne]; [constructor|].
    assert (Hi : Re.at_ p s i = true) by (apply Hall; lia).
    apply at_true in Hi. destruct Hi as (c & Hc & Hp).
    apply Re.MStarCons with (k := S i).
    + econstructor; eassumption.
    + lia.
    + apply IH; try lia. intros k Hk. apply Hall. lia.
Qed.

Lemma Match_plus_chr_intro (s : str) p i j :
  i < j -> (forall k, i <= k < j -> Re.at_ p s k = true) ->
  Re.Match s (Re.Plus (Re.Chr p)) i j.
Proof.
  intros Hij Hall.
  assert (Hi : Re.at_ p s i = true) by (apply Hall; lia).
  apply at_true in Hi. destruct Hi as (c & Hc & Hp).
  unfold Re.Plus. apply Re.MSeq with (k := S i).
  - econstructor; eassumption.
  - apply Match_star_chr_intro with (n := j - S i); try lia.
    intros k Hk. apply Hall. lia.
Qed.

Lemma Match_plus_star (s : str) a i j :
  Re.Match s (Re.Plus a) i j -> Re.Match s (Re.Star a) i j.
Proof.
  unfold Re.Plus. intros H.
  inversion H as [| | | |? ? ? k ? Ha Hs| | | |]; subst.
  pose proof (Match_bounds _ _ _ _ Ha) as [Hle _].
  destruct (Nat.eq_dec i k) as [->|Hne]; [assumption|].
  apply Re.MStarCons with (k := k); [assumption|lia|assumption].
Qed.

(** ** Tokens and the whitespace between them *)

Section Tokens.

Variable sep : ascii -> bool.

Let tok : ascii -> bool := fun c => negb (sep c).
Let group : Re.regex :=
  Re.Seq (Re.Plus (Re.Chr tok)) (Re.Plus (Re.Chr sep)).

Lemma at_tok_not_sep (s : str) k :
  Re.at_ tok s k = true -> Re.at_ sep s k = false.
Proof.
  unfold Re.at_, tok. destruct (nth_error s k); [|discriminate].
  now intros H%negb_true_iff.
Qed.

Lemma at_sep_not_tok (s : str) k :
  Re.at_ sep s k = true -> Re.at_ tok s k = false.
Proof.
  unfold Re.at_, tok. destruct (nth_error s k); [|discriminate].
  intros ->. reflexivity.
Qed.

Lemma at_not_sep_tok (s : str) k :
  k < length s -> Re.at_ sep s k = false -> Re.at_ tok s k = true.
Proof.
  unfold Re.at_, tok. intros Hk. apply nth_error_Some in Hk.
  destruct (nth_error s k); [|congruence]. intros ->. reflexivity.
Qed.

Lemma Match_group (s : str) i j :
  Re.Match s group i j ->
  exists m,
    i < m < j /\
    (forall k, i <= k < m -> Re.at_ tok s k = true) /\
    (forall k, m <= k < j -> Re.at_ sep s k = true).
Proof.
  intros H. unfold group in H.
  inversion H as [| | | |? ? ? m ? Ht Hs| | | |]; subst.
  apply Match_plus_chr in Ht, Hs. exists m. intuition lia.
Qed.

Lemma Match_star_group_last (s : str) i j :
  Re.Match s (Re.Star group) i j ->
  i = j \/ (i < j /\ Re.at_ sep s (j - 1) = true).
Proof.
  intros H. remember (Re.Star group) as r eqn:Er.
  induction H; try discriminate.
  - now left.
  - injection Er as ->. right.
    destruct (IHMatch2 eq_refl) as [<-|[Hlt Hsp]].
    + apply Match_group in H. destruct H as (m & Hm & _ & Hs).
      split; [lia|]. apply Hs. lia.
    + split; [lia|assumption].
Qed.

Lemma Match_plus_group (s : str) i j :
  Re.Match s (Re.Plus group) i j ->
  i < j /\ Re.at_ tok s i = true /\ Re.at_ sep s (j - 1) = true.
Proof.
  intros H. unfold Re.Plus in H.
  inversion H as [| | | |? ? ? k ? Hg Hs| | | |]; subst.
  apply Match_star_group_last in Hs.
  apply Match_group in Hg. destruct Hg as (m & Hm & Ht & Hsp).
  split; [destruct Hs; lia|]. split; [apply Ht; lia|].
  destruct Hs as [<-|[_ Hs]]; [apply Hsp; lia|assumption].
Qed.

(** Any stretch of text that starts with a token character and ends
    with a separator is a sequence of groups. *)
Lemma Match_plus_group_intro (s : str) n :
  forall i j,
    j - i <= n -> i < j <= length s ->
    Re.at_ tok s i = true -> Re.at_ sep s (j - 1) = true ->
    Re.Match s (Re.Plus group) i j.
Proof.
  induction n as [|n IH]; intros i j Hn Hij Hi Hj; [lia|].
  (* the token, up to where it stops *)
  destruct (star_chr_head s tok (S (length s - i)) i)
    as (d & _ & _ & Hid & Htok & Hd); [lia|].
  assert (Hid' : i < d).
  { destruct (Nat.eq_dec i d) as [->|]; [congruence|lia]. }
  assert (Hdj : d <= j - 1).
  { destruct (le_lt_dec d (j - 1)); [assumption|].
    apply at_sep_not_tok in Hj. rewrite Htok in Hj by lia. discriminate. }
  assert (Hsd : Re.at_ sep s d = true).
  { destruct (Re.at_ sep s d) eqn:E; [reflexivity|].
    apply at_not_sep_tok in E; [congruence|lia]. }
  (* the whitespace after it *)
  destruct (star_chr_head s sep (S (length s - d)) d)
    as (f & _ & _ & Hdf & Hsep & Hf); [lia|].
  assert (Hdf' : d < f).
  { destruct (Nat.eq_dec d f) as [->|]; [congruence|lia]. }
  destruct (le_lt_dec j f) as [Hjf|Hfj].
  - unfold Re.Plus. apply Re.MSeq with (k := j); [|constructor].
    apply Re.MSeq with (k := d).
    + apply Match_plus_chr_intro; assumption.
    + apply Match_plus_chr_intro; [lia|]. intros k Hk. apply Hsep. lia.
  - unfold Re.Plus. apply Re.MSeq with (k := f).
    + apply Re.MSeq with (k := d).
      * apply Match_plus_chr_intro; assumption.
      * apply Match_plus_chr_intro; assumption.
    + apply Match_plus_star. apply IH; try lia; [|assumption].
      apply at_not_sep_tok; [lia|assumption].
Qed.

End Tokens.

(** ** The header match *)

Lemma Match_header (s : str) a e :
  Re.Match s header_re a e ->
  Re.at_beginning_line s a = true /\
  header_end s e /\
  exists p, a <= p < e /\
            Re.at_ (fun c => negb (Py.isspace c)) s p = true.
Proof.
  intros H. unfold header_re in H.
  inversion H as [| | | |? ? ? a1 ? Hbol Hrest| | | |]; subst.
  inversion Hbol as [| |? Hb| | | | | |]; subst.
  inversion Hrest as [| | | |? ? ? w ? Hsp Htail| | | |]; subst.
  inversion Htail as [| | | |? ? ? e1 ? Hgroups Heol| | | |]; subst.
  inversion Heol as [| | |? He| | | | |]; subst.
  apply (Match_plus_group Py.isspace) in Hgroups.
  destruct Hgroups as (Hlt & Htok & Hlast).
  apply Match_bounds in Hsp as [Hle _].
  split; [assumption|].
  split; [|exists w; split; [lia|assumption]].
  unfold header_end. split; [assumption|]. split; [assumption|].
  exists w. split; [lia|assumption].
Qed.

Lemma header_end_Match (s : str) e :
  header_end s e -> Re.Match s header_re 0 e.
Proof.
  intros (Heol & Hlast & p & Hpe & Hp).
  destruct (star_chr_head s Py.isspace (S (length s - 0)) 0)
    as (p0 & _ & _ & _ & Hws & Hp0); [lia|].
  assert (Hp0p : p0 <= p).
  { destruct (le_lt_dec p0 p); [assumption|].
    apply (at_tok_not_sep Py.isspace) in Hp. rewrite Hws in Hp by lia.
    discriminate. }
  pose proof (at_lt _ _ _ Hp) as Hplen.
  pose proof (at_lt _ _ _ Hlast) as Helen.
  unfold header_re.
  apply Re.MSeq with (k := 0); [now constructor|].
  apply Re.MSeq with (k := p0).
  - apply Match_star_chr_intro with (n := p0); try lia.
    intros k Hk. apply Hws. lia.
  - apply Re.MSeq with (k := e); [|now constructor].
    apply (Match_plus_group_intro Py.isspace s (e - p0)); try lia;
      [|assumption].
    apply at_not_sep_tok; [lia|assumption].
Qed.

(** The header line is never empty and starts with a character that is
    not whitespace. *)
Lemma find_header_line_first content h :
  find_header_line content = Some h ->
  exists c t, h = c :: t /\ Py.isspace c = false.
Proof.
  unfold find_header_line.
  destruct (Re.search header_re content) as [[a e]|] eqn:E; [|discriminate].
  intros H. injection H as <-.
  apply search_some in E as (HM & _ & _).
  apply Match_header in HM. destruct HM as (_ & _ & p & Hp & Hat).
  apply at_true in Hat. destruct Hat as (c & Hc & Hns).
  apply negb_true_iff in Hns.
  assert (Hin : In c (Py.slice a e content)).
  { apply nth_error_In with (n := p - a). rewrite nth_error_slice.
    rewrite (proj2 (Nat.ltb_lt _ _)) by lia.
    now replace (a + (p - a)) with p by lia. }
  destruct (Py.strip (Py.slice a e content)) as [|c0 t] eqn:Es.
  - exfalso. now apply (strip_nonempty _ _ Hin Hns).
  - exists c0, t. split; [reflexivity|]. now apply (strip_first _ _ _ Es).
Qed.

(** ** The table that is returned *)

Lemma find_dash_line_positions content dash_line d_end :
  find_dash_line content = Some (dash_line, d_end) ->
  find_positions dash_line <> [].
Proof.
  unfold find_dash_line.
  destruct (Re.search dash_line_re content) as [[a e]|] eqn:E; [|discriminate].
  intros H. injection H as <- <-.
  now apply (find_positions_nonempty content a e).
Qed.

(** *** Building the frame *)

Lemma extract_rows_wide positions n_columns data_section row :
  In row (extract_rows positions n_columns data_section) ->
  n_columns <= length row.
Proof.
  intros H. apply in_extract_rows in H. destruct H as (line & _ & Hp).
  apply process_line_some in Hp. destruct Hp as (_ & _ & -> & _).
  rewrite length_pad_row. lia.
Qed.

Lemma pad_row_full n_columns row :
  length row = n_columns -> pad_row n_columns row = row.
Proof.
  intros <-. unfold pad_row. rewrite Nat.sub_diag. apply app_nil_r.
Qed.

Lemma DataFrame_rows data_rows column_names :
  data_rows <> [] ->
  DataFrame data_rows column_names
  = if list_max (map (@length (option str)) data_rows)
       =? length column_names
    then Returns
           (Table column_names
              (map (pad_row (list_max (map (@length (option str)) data_rows)))
                 data_rows))
    else Raises ValueError.
Proof. destruct data_rows; [congruence|reflexivity]. Qed.

(** With rows that all reach the number of names, the frame is built
    exactly when none of them goes beyond it, and holds the rows as
    they are. *)
Lemma DataFrame_returns data_rows column_names df :
  (forall row, In row data_rows -> length column_names <= length row) ->
  DataFrame data_rows column_names = Returns df ->
  df = Table column_names data_rows /\
  forall row, In row data_rows -> length row = length column_names.
Proof.
  intros Hwide H. destruct data_rows as [|r rs].
  - simpl in H. injection H as <-. split; [reflexivity|intros row []].
  - assert (Hne : r :: rs <> []) by discriminate.
    remember (r :: rs) as data_rows eqn:Er. clear Er.
    rewrite DataFrame_rows in H by assumption.
    destruct (_ =? _) eqn:E; [|discriminate]. apply Nat.eqb_eq in E.
    assert (Heq : forall row, In row data_rows ->
                              length row = length column_names).
    { intros row Hrow. apply Nat.le_antisymm; [|now apply Hwide].
      rewrite <- E.
      pose proof (proj1 (list_max_le (map (@length (option str)) data_rows)
                           _) (Nat.le_refl _)) as Hall.
      rewrite Forall_forall in Hall. apply Hall. now apply in_map. }
    injection H as <-. split; [|assumption].
    f_equal.
    transitivity (map (fun row : list (option str) => row) data_rows);
      [|apply map_id].
    apply map_ext_in. intros row Hrow. apply pad_row_full.
    rewrite E. now apply Heq.
Qed.

Lemma DataFrame_raises data_rows column_names :
  (forall row, In row data_rows -> length column_names <= length row) ->
  DataFrame data_rows column_names = Raises ValueError <->
  exists row, In row data_rows /\ length column_names < length row.
Proof.
  intros Hwide. split.
  - intros H.
    destruct data_rows as [|r rs] eqn:Er; [discriminate|rewrite <- Er in *].
    assert (Hne : data_rows <> []) by (rewrite Er; discriminate).
    rewrite DataFrame_rows in H by assumption.
    destruct (_ =? _) eqn:E; [discriminate|]. apply Nat.eqb_neq in E.
    destruct (Forall_Exists_dec (fun row : list (option str) =>
                                   length row <= length column_names)
                (fun row => le_dec (length row) (length column_names))
                data_rows) as [Hall|Hex].
    + exfalso. apply E. apply Nat.le_antisymm.
      * apply list_max_le. apply Forall_map. assumption.
      * rewrite Er. simpl.
        assert (length column_names <= length r)
          by (apply Hwide; rewrite Er; now left).
        lia.
    + apply Exists_exists in Hex. destruct Hex as (row & Hin & Hgt).
      exists row. split; [assumption|lia].
  - intros (row & Hin & Hgt).
    destruct (DataFrame data_rows column_names) as [df|[]] eqn:E;
      [|reflexivity].
    apply DataFrame_returns in E as [_ Heq]; [|assumption].
    apply Heq in Hin. lia.
Qed.

(** What [parse_rpt_file] does when the layout is found. *)
Lemma parse_rpt_file_found content h dash_line d_end :
  find_header_line content = Some h ->
  find_dash_line content = Some (dash_line, d_end) ->
  let positions := find_positions dash_line in
  let names := column_names (Py.replace tab space h) positions in
  let data_rows :=
    extract_rows positions (length names) (Py.slice_from d_end content) in
  parse_rpt_file content
  = match DataFrame data_rows names with
    | Returns df =>
        ([FoundColumns (length positions);
          ExtractedColumnNames (length names);
          ParsedDataRows (length data_rows);
          Extracted (length (rows df)) (length names)],
         Returns (Some df))
    | Raises e =>
        ([FoundColumns (length positions);
          ExtractedColumnNames (length names);
          ParsedDataRows (length data_rows)],
         Raises e)
    end.
Proof.
  intros Hh Hd. cbv zeta. unfold parse_rpt_file. rewrite Hh, Hd.
  pose proof (find_dash_line_positions _ _ _ Hd) as Hne.
  destruct (find_positions dash_line) as [|p ps] eqn:Ep; [congruence|].
  cbv zeta. destruct (DataFrame _ _); reflexivity.
Qed.

(** What a returned table is made of. *)
Lemma parse_rpt_file_some content t :
  snd (parse_rpt_file content) = Returns (Some t) ->
  exists h dash_line d_end,
    find_header_line content = Some h /\
    find_dash_line content = Some (dash_line, d_end) /\
    find_positions dash_line <> [] /\
    columns t
    = column_names (Py.replace tab space h) (find_positions dash_line) /\
    rows t
    = extract_rows (find_positions dash_line) (length (columns t))
        (Py.slice_from d_end content) /\
    forall row, In row (rows t) -> length row = length (columns t).
Proof.
  intros H.
  destruct (find_header_line content) as [h|] eqn:Eh;
    [|unfold parse_rpt_file in H; rewrite Eh in H; discriminate].
  destruct (find_dash_line content) as [[dash_line d_end]|] eqn:Ed;
    [|unfold parse_rpt_file in H; rewrite Eh, Ed in H; discriminate].
  rewrite (parse_rpt_file_found _ _ _ _ Eh Ed) in H. cbv zeta in H.
  destruct (DataFrame _ _) as [df|e] eqn:E; [|discriminate].
  cbn [snd] in H. injection H as ->.
  apply DataFrame_returns in E as [-> Heq];
    [|intros row; apply extract_rows_wide].
  exists h, dash_line, d_end. cbn [columns rows].
  repeat split; try assumption.
  now apply (find_dash_line_positions _ _ _ Ed).
Qed.

(** X2: [parse_rpt_file] returns [None] exactly when no header line or
    no dash line is found, and the failure of finding no dash run in
    the dash line never happens; when both are found it raises
    [ValueError] exactly when one of the rows it built is wider than
    the column names, and returns the names with those rows
    otherwise. *)
Theorem parse_outcome_characterised content :
  (snd (parse_rpt_file content) = Returns None <->
   find_header_line content = None \/ find_dash_line content = None)
  /\ (forall dash_line,
        ~ In (NoColumnSeparators dash_line) (fst (parse_rpt_file content)))
  /\ (forall h dash_line d_end,
        find_header_line content = Some h ->
        find_dash_line content = Some (dash_line, d_end) ->
        let names :=
          column_names (Py.replace tab space h)
            (find_positions dash_line) in
        let data_rows :=
          extract_rows (find_positions dash_line) (length names)
            (Py.slice_from d_end content) in
        (snd (parse_rpt_file content) = Raises ValueError <->
         exists row, In row data_rows /\ length names < length row)
        /\ (snd (parse_rpt_file content)
            = Returns (Some (Table names data_rows)) <->
            forall row, In row data_rows -> length row = length names)).
Proof.
  destruct (find_header_line content) as [h|] eqn:Eh.
  - destruct (find_dash_line content) as [[dash_line d_end]|] eqn:Ed.
    + rewrite (parse_rpt_file_found _ _ _ _ Eh Ed). cbv zeta.
      set (names := column_names _ _).
      set (data_rows := extract_rows _ _ _).
      assert (Hwide : forall row, In row data_rows ->
                                  length names <= length row)
        by (intros row; apply extract_rows_wide).
      pose proof (DataFrame_raises data_rows names Hwide) as Hr.
      split; [|split].
      * split; [|intros [H|H]; discriminate].
        destruct (DataFrame data_rows names); discriminate.
      * intros dl Hin. destruct (DataFrame data_rows names);
          cbn [fst] in Hin; repeat destruct Hin as [Hin|Hin];
          try discriminate Hin; try contradiction.
      * intros h' dl' d_end' Hh' Hd'.
        injection Hh' as <-. injection Hd' as <- <-.
        fold names. fold data_rows. split.
        -- rewrite <- Hr.
           destruct (DataFrame data_rows names) as [df|[]]; cbn [snd];
             split; intros H; try discriminate H; reflexivity.
        -- destruct (DataFrame data_rows names) as [df|[]] eqn:E; cbn [snd].
           ++ apply DataFrame_returns in E as [-> Heq]; [|assumption].
              split; [intros _; assumption|reflexivity].
           ++ split; [discriminate|]. intros Heq. exfalso.
              destruct (proj1 Hr eq_refl) as (row & Hin & Hgt).
              apply Heq in Hin. lia.
    + unfold parse_rpt_file. rewrite Eh, Ed. cbn [fst snd].
      split; [tauto|]. split.
      * intros dl [H|[]]. discriminate.
      * intros h' dl' d_end' _ Hd'. discriminate.
  - unfold parse_rpt_file. rewrite Eh. cbn [fst snd].
    split; [tauto|]. split.
    + intros dl [H|[]]. discriminate.
    + intros h' dl' d_end' Hh'. discriminate.
Qed.

(** *** Column names *)

Lemma dropwhile_none p (s : str) :
  Forall (fun c => p c = false) s -> Py.dropwhile p s = s.
Proof. intros H. destruct H as [|c s Hc _]; simpl; [|rewrite Hc]; reflexivity. Qed.

Lemma no_space_trimmed (s : str) :
  Forall (fun c => Py.isspace c = false) s -> trimmed s.
Proof.
  intros H. unfold trimmed, Py.strip, Py.lstrip, Py.rstrip.
  rewrite (dropwhile_none _ _ H).
  rewrite (dropwhile_none _ _ (Forall_rev H)). apply rev_involutive.
Qed.

Lemma uint_digits_no_space d :
  Forall (fun c => Py.isspace c = false) (txt (NilEmpty.string_of_uint d)).
Proof.
  unfold txt.
  induction d; simpl; constructor; try reflexivity; assumption.
Qed.

Lemma placeholder_clean i : placeholder i <> [] /\ trimmed (placeholder i).
Proof.
  split; [discriminate|]. apply no_space_trimmed. unfold placeholder.
  apply Forall_app. split; [|apply uint_digits_no_space].
  repeat constructor.
Qed.

Lemma middle_name_clean header_line positions i :
  middle_name header_line positions i <> [] /\
  trimmed (middle_name header_line positions i).
Proof.
  unfold middle_name. cbv zeta.
  destruct (_ <? _); [|apply placeholder_clean].
  destruct (Py.is_empty _) eqn:E; [apply placeholder_clean|].
  split; [now apply is_empty_false|apply strip_trimmed].
Qed.

Lemma trailing_name_clean header_line positions name :
  In name (trailing_name header_line positions) ->
  name <> [] /\ trimmed name.
Proof.
  unfold trailing_name. cbv zeta.
  destruct (_ <? _); [|contradiction].
  destruct (Py.is_empty _) eqn:E; [contradiction|].
  intros [<-|[]]. split; [now apply is_empty_false|apply strip_trimmed].
Qed.

Lemma find_positions_span dash_line a b :
  In (a, b) (find_positions dash_line) -> a < b.
Proof. intros H. now apply find_positions_runs in H as (Hab & _). Qed.

(** X3: every column name of a returned table is a non-empty text
    without whitespace at its ends. *)
Theorem column_names_are_clean content t name :
  snd (parse_rpt_file content) = Returns (Some t) ->
  In name (columns t) ->
  name <> [] /\ trimmed name.
Proof.
  intros Ht Hin.
  apply parse_rpt_file_some in Ht.
  destruct Ht as (h & dl & d_end & Hh & _ & Hne & Hcols & _ & _).
  rewrite Hcols in Hin. unfold column_names in Hin.
  destruct Hin as [<-|Hin].
  - split; [|apply strip_trimmed].
    apply find_header_line_first in Hh. destruct Hh as (c & tl & -> & Hc).
    destruct (find_positions dl) as [|[a b] ps] eqn:Ep; [congruence|].
    assert (Hab : a < b) by (apply (find_positions_span dl); rewrite Ep; now left).
    assert (Hct : Ascii.eqb c tab = false).
    { destruct (Ascii.eqb c tab) eqn:E; [|reflexivity].
      apply Ascii.eqb_eq in E. subst c. discriminate Hc. }
    unfold span_at, Py.slice_to. cbn [nth snd Py.replace map length].
    rewrite Hct.
    destruct (Nat.min b (S (length (map _ tl)))) as [|m] eqn:Em; [lia|].
    cbn [firstn]. apply strip_nonempty with (c := c); [now left|assumption].
  - apply in_app_or in Hin. destruct Hin as [Hin|Hin].
    + apply in_map_iff in Hin. destruct Hin as (i & <- & _).
      apply middle_name_clean.
    + now apply trailing_name_clean in Hin.
Qed.

Lemma column_names_are_clean_witness :
  snd (parse_rpt_file report_example)
  = Returns (Some (Table
      [txt "ID"; txt "Column2"; txt "Column3";
       unlines ["---- -------- ------";
                "1    Alice    100.00";
                "2    NULL     50.00"]%string]
      [[Some (txt "1"); Some []; Some []; None];
       [Some (txt "2"); Some []; Some []; None]]))
  /\ txt "Column2" <> [] /\ trimmed (txt "Column2").
Proof.
  assert (H : snd (parse_rpt_file report_example)
              = Returns (Some (Table
                  [txt "ID"; txt "Column2"; txt "Column3";
                   unlines ["---- -------- ------";
                            "1    Alice    100.00";
                            "2    NULL     50.00"]%string]
                  [[Some (txt "1"); Some []; Some []; None];
                   [Some (txt "2"); Some []; Some []; None]])))
    by (vm_compute; reflexivity).
  split; [exact H|].
  apply (column_names_are_clean report_example _ (txt "Column2") H).
  right. left. reflexivity.
Defined.

(** *** The shape of the table *)

Lemma length_column_names header_line positions :
  length (column_names header_line positions)
  = S (length positions - 1) + length (trailing_name header_line positions).
Proof.
  unfold column_names. cbn [length].
  now rewrite length_app, length_map, length_seq.
Qed.

Lemma length_trailing_name header_line positions :
  length (trailing_name header_line positions) <= 1.
Proof.
  unfold trailing_name. cbv zeta.
  destruct (_ <? _); [|simpl; lia].
  destruct (Py.is_empty _); simpl; lia.
Qed.

(** X4: a returned table has one column name for every detected span,
    or one more, and each of its rows has exactly as many cells as
    there are column names. *)
Theorem table_shape content t :
  snd (parse_rpt_file content) = Returns (Some t) ->
  exists dash_line d_end,
    find_dash_line content = Some (dash_line, d_end) /\
    1 <= length (find_positions dash_line) /\
    length (find_positions dash_line) <= length (columns t)
      <= S (length (find_positions dash_line)) /\
    forall row, In row (rows t) -> length row = length (columns t).
Proof.
  intros Ht. apply parse_rpt_file_some in Ht.
  destruct Ht as (h & dl & d_end & _ & Hd & Hne & Hcols & _ & Hrows).
  exists dl, d_end. split; [assumption|].
  assert (Hn : 1 <= length (find_positions dl)).
  { destruct (find_positions dl); [congruence|simpl; lia]. }
  split; [assumption|].
  pose proof (length_trailing_name (Py.replace tab space h)
                (find_positions dl)) as Htr.
  split; [|assumption].
  rewrite Hcols, length_column_names. lia.
Qed.

Lemma table_shape_witness :
  snd (parse_rpt_file report_example)
  = Returns (Some (Table
      [txt "ID"; txt "Column2"; txt "Column3";
       unlines ["---- -------- ------";
                "1    Alice    100.00";
                "2    NULL     50.00"]%string]
      [[Some (txt "1"); Some []; Some []; None];
       [Some (txt "2"); Some []; Some []; None]]))
  /\ exists dash_line d_end,
       find_dash_line report_example = Some (dash_line, d_end) /\
       1 <= length (find_positions dash_line) /\
       length (find_positions dash_line) <= 4
         <= S (length (find_positions dash_line)) /\
       forall row,
         In row [[Some (txt "1"); Some []; Some []; None];
                 [Some (txt "2"); Some []; Some []; None]] ->
         length row = 4.
Proof.
  assert (H : snd (parse_rpt_file report_example)
              = Returns (Some (Table
                  [txt "ID"; txt "Column2"; txt "Column3";
                   unlines ["---- -------- ------";
                            "1    Alice    100.00";
                            "2    NULL     50.00"]%string]
                  [[Some (txt "1"); Some []; Some []; None];
                   [Some (txt "2"); Some []; Some []; None]])))
    by (vm_compute; reflexivity).
  split; [exact H|].
  exact (table_shape report_example _ H).
Defined.

(** ** The order in which the matcher tries the ends of a match *)

Section Descending.

Let desc : list nat -> Prop := StronglySorted (fun x y => y < x).

Lemma desc_app l1 l2 :
  desc l1 -> desc l2 ->
  (forall x y, In x l1 -> In y l2 -> y < x) ->
  desc (l1 ++ l2).
Proof.
  unfold desc. induction l1 as [|a l1 IH]; intros H1 H2 H; [assumption|].
  apply StronglySorted_inv in H1 as [H1 Ha]. simpl. constructor.
  - apply IH; auto. intros x y Hx Hy. apply H; [now right|assumption].
  - apply Forall_app. split; [assumption|].
    apply Forall_forall. intros y Hy. apply H; [now left|assumption].
Qed.

Lemma desc_filter b l : desc l -> desc (filter b l).
Proof.
  unfold desc. induction 1 as [|a l Hs IH Ha]; simpl; [constructor|].
  destruct (b a); [|assumption]. constructor; [assumption|].
  apply Forall_forall. intros y Hy. apply filter_In in Hy as [Hy _].
  rewrite Forall_forall in Ha. now apply Ha.
Qed.

Lemma desc_head e tl x : desc (e :: tl) -> In x tl -> x < e.
Proof.
  unfold desc. intros H Hx. apply StronglySorted_inv in H as [_ H].
  rewrite Forall_forall in H. now apply H.
Qed.

Lemma desc_tail e tl : desc (e :: tl) -> desc tl.
Proof. unfold desc. intros H. now apply StronglySorted_inv in H. Qed.

Lemma desc_single x : desc [x].
Proof. unfold desc. repeat constructor. Qed.

Lemma desc_nil : desc [].
Proof. constructor. Qed.

Lemma flat_map_singletons {A} (g : A -> list A) l :
  (forall x, In x l -> g x = [x]) -> flat_map g l = l.
Proof.
  induction l as [|a l IH]; intros H; [reflexivity|].
  simpl. rewrite H by now left. simpl. f_equal.
  apply IH. intros x Hx. apply H. now right.
Qed.

Lemma flat_map_filter (b : nat -> bool) l :
  flat_map (fun x => if b x then [x] else []) l = filter b l.
Proof.
  induction l as [|a l IH]; [reflexivity|].
  simpl. rewrite IH. destruct (b a); reflexivity.
Qed.

(** [p*] and [p+]: from the longest to the shortest. *)
Lemma star_chr_desc (s : str) p fuel :
  forall i,
    desc (Re.star_ends (Re.ends s (Re.Chr p)) fuel i) /\
    forall x, In x (Re.star_ends (Re.ends s (Re.Chr p)) fuel i) -> i <= x.
Proof.
  induction fuel as [|f IH]; intros i.
  - split; [apply desc_nil|intros x []].
  - cbn [Re.star_ends]. rewrite ends_chr.
    destruct (Re.at_ p s i).
    + cbn [flat_map]. rewrite (proj2 (Nat.ltb_lt i (S i))) by lia.
      rewrite app_nil_r. destruct (IH (S i)) as [Hd Hge]. split.
      * apply desc_app; [assumption|apply desc_single|].
        intros x y Hx [<-|[]]. apply Hge in Hx. lia.
      * intros x Hx. apply in_app_or in Hx.
        destruct Hx as [Hx|[<-|[]]]; [apply Hge in Hx|]; lia.
    + cbn [flat_map app]. split; [apply desc_single|].
      intros x [<-|[]]. lia.
Qed.

Lemma plus_chr_desc (s : str) p i :
  desc (Re.ends s (Re.Plus (Re.Chr p)) i) /\
  forall x, In x (Re.ends s (Re.Plus (Re.Chr p)) i) -> i < x.
Proof.
  rewrite ends_plus, ends_chr. destruct (Re.at_ p s i).
  - cbn [flat_map]. rewrite app_nil_r, ends_star_eq.
    destruct (star_chr_desc s p (S (length s - S i)) (S i)) as [Hd Hge].
    split; [assumption|]. intros x Hx. apply Hge in Hx. lia.
  - cbn [flat_map]. split; [apply desc_nil|intros x []].
Qed.

Variable sep : ascii -> bool.

Let tok : ascii -> bool := fun c => negb (sep c).
Let group : Re.regex :=
  Re.Seq (Re.Plus (Re.Chr tok)) (Re.Plus (Re.Chr sep)).

(** One group: only the whole token can be followed by a separator. *)
Lemma ends_group (s : str) i :
  Re.ends s group i
  = match Re.ends s (Re.Plus (Re.Chr tok)) i with
    | [] => []
    | d :: _ => Re.ends s (Re.Plus (Re.Chr sep)) d
    end.
Proof.
  unfold group. rewrite ends_seq.
  destruct (Re.at_ tok s i) eqn:Ei.
  - destruct (plus_chr_ends_head s tok i Ei) as (d & tl & E & Hid & Hall & _).
    rewrite E. cbn [flat_map].
    rewrite flat_map_all_nil; [apply app_nil_r|].
    intros k Hk. apply plus_chr_ends_nil.
    destruct (plus_chr_desc s tok i) as [Hd Hgt]. rewrite E in Hd, Hgt.
    apply (at_tok_not_sep sep). apply Hall. split.
    + assert (i < k) by (apply Hgt; now right). lia.
    + now apply (desc_head d tl).
  - rewrite plus_chr_ends_nil by assumption. reflexivity.
Qed.

Lemma group_desc (s : str) i :
  desc (Re.ends s group i) /\
  forall x, In x (Re.ends s group i) -> i < x.
Proof.
  rewrite ends_group.
  destruct (Re.ends s (Re.Plus (Re.Chr tok)) i) as [|d tl] eqn:E.
  - split; [apply desc_nil|intros x []].
  - destruct (plus_chr_desc s sep d) as [Hd Hgt]. split; [assumption|].
    intros x Hx. apply Hgt in Hx.
    destruct (plus_chr_desc s tok i) as [_ Hgt']. rewrite E in Hgt'.
    assert (i < d) by (apply Hgt'; now left). lia.
Qed.

Lemma group_nil_at_sep (s : str) x :
  Re.at_ sep s x = true -> Re.ends s group x = [].
Proof.
  intros H. rewrite ends_group.
  now rewrite plus_chr_ends_nil by now apply (at_sep_not_tok sep).
Qed.

Lemma group_tail_sep (s : str) i f0 tl x :
  Re.ends s group i = f0 :: tl -> In x tl -> Re.at_ sep s x = true.
Proof.
  intros E Hx. pose proof (group_desc s i) as [Hd _].
  rewrite E in Hd. pose proof (desc_head _ _ _ Hd Hx) as Hlt.
  rewrite ends_group in E.
  destruct (Re.ends s (Re.Plus (Re.Chr tok)) i) as [|d tl'];
    [discriminate|].
  destruct (Re.at_ sep s d) eqn:Ed.
  - destruct (plus_chr_ends_head s sep d Ed) as (f & tlf & Ef & _ & Hall & _).
    rewrite Ef in E. injection E as -> ->.
    apply Hall. split; [|assumption].
    destruct (plus_chr_desc s sep d) as [_ Hgt]. rewrite Ef in Hgt.
    assert (d < x) by (apply Hgt; now right). lia.
  - rewrite plus_chr_ends_nil in E by assumption. discriminate.
Qed.

Lemma star_group_at_sep (s : str) fuel x :
  Re.at_ sep s x = true ->
  Re.star_ends (Re.ends s group) (S fuel) x = [x].
Proof.
  intros H. cbn [Re.star_ends]. now rewrite group_nil_at_sep.
Qed.

(** The groups: from the longest sequence to the shortest. *)
Lemma star_group_desc (s : str) fuel :
  forall i,
    length s - i < fuel ->
    desc (Re.star_ends (Re.ends s group) fuel i) /\
    forall x, In x (Re.star_ends (Re.ends s group) fuel i) -> i <= x.
Proof.
  induction fuel as [|f IH]; intros i Hf; [lia|].
  cbn [Re.star_ends].
  destruct (Re.ends s group i) as [|f0 tl] eqn:E.
  - cbn [flat_map app]. split; [apply desc_single|].
    intros x [<-|[]]. lia.
  - pose proof (group_desc s i) as [Hd Hgt]. rewrite E in Hd, Hgt.
    assert (Hif0 : i < f0) by (apply Hgt; now left).
    assert (Hf0 : f0 <= length s).
    { apply (ends_bounds s group i f0); [rewrite E; now left|assumption]. }
    cbn [flat_map]. rewrite (proj2 (Nat.ltb_lt i f0)) by assumption.
    assert (Htl : flat_map
                    (fun j => if i <? j
                              then Re.star_ends (Re.ends s group) f j
                              else []) tl = tl).
    { apply flat_map_singletons. intros x Hx.
      assert (i < x) by (apply Hgt; now right).
      rewrite (proj2 (Nat.ltb_lt i x)) by assumption.
      destruct f as [|f']; [lia|].
      apply star_group_at_sep. now apply (group_tail_sep s i f0 tl). }
    rewrite Htl. destruct (IH f0) as [Hd0 Hge0]; [lia|]. split.
    + apply desc_app; [apply desc_app|apply desc_single|].
      * assumption.
      * now apply desc_tail in Hd.
      * intros x y Hx Hy. apply Hge0 in Hx.
        pose proof (desc_head _ _ _ Hd Hy). lia.
      * intros x y Hx [<-|[]]. apply in_app_or in Hx.
        destruct Hx as [Hx|Hx]; [apply Hge0 in Hx; lia|].
        apply Hgt. now right.
    + intros x Hx. apply in_app_or in Hx. destruct Hx as [Hx|[<-|[]]]; [|lia].
      apply in_app_or in Hx. destruct Hx as [Hx|Hx].
      * apply Hge0 in Hx. lia.
      * assert (i < x) by (apply Hgt; now right). lia.
Qed.

Lemma plus_group_desc (s : str) i :
  desc (Re.ends s (Re.Plus group) i) /\
  forall x, In x (Re.ends s (Re.Plus group) i) -> i < x.
Proof.
  rewrite ends_plus.
  destruct (Re.ends s group i) as [|f0 tl] eqn:E.
  - split; [apply desc_nil|intros x []].
  - pose proof (group_desc s i) as [Hd Hgt]. rewrite E in Hd, Hgt.
    assert (Hif0 : i < f0) by (apply Hgt; now left).
    cbn [flat_map].
    assert (Htl : flat_map (Re.ends s (Re.Star group)) tl = tl).
    { apply flat_map_singletons. intros x Hx. rewrite ends_star_eq.
      apply star_group_at_sep. now apply (group_tail_sep s i f0 tl). }
    rewrite Htl, ends_star_eq.
    destruct (star_group_desc s (S (length s - f0)) f0) as [Hd0 Hge0]; [lia|].
    split.
    + apply desc_app; [assumption|now apply desc_tail in Hd|].
      intros x y Hx Hy. apply Hge0 in Hx.
      pose proof (desc_head _ _ _ Hd Hy). lia.
    + intros x Hx. apply in_app_or in Hx. destruct Hx as [Hx|Hx].
      * apply Hge0 in Hx. lia.
      * apply Hgt. now right.
Qed.

(** [^\s*(group)+$], for any separator class: the ends are tried from
    the rightmost to the leftmost. *)
Lemma anchored_groups_desc (s : str) a :
  desc (Re.ends s
          (Re.Seq Re.Bol
             (Re.Seq (Re.Star (Re.Chr sep))
                (Re.Seq (Re.Plus group) Re.Eol))) a).
Proof.
  rewrite ends_seq, ends_bol.
  destruct (Re.at_beginning_line s a); [|apply desc_nil].
  cbn [flat_map]. rewrite app_nil_r, ends_seq, ends_star_eq.
  destruct (star_chr_head s sep (S (length s - a)) a)
    as (w & tl & Ew & Haw & Hall & _); [lia|].
  pose proof (star_chr_desc s sep (S (length s - a)) a) as [Hd Hge].
  rewrite Ew in Hd, Hge |- *. cbn [flat_map].
  rewrite flat_map_all_nil.
  - rewrite app_nil_r, ends_seq.
    change (Re.ends s Re.Eol)
      with (fun x => if Re.at_end_line s x then [x] else []).
    rewrite flat_map_filter. apply desc_filter. apply plus_group_desc.
  - intros x Hx. rewrite ends_seq, ends_plus.
    rewrite group_nil_at_sep; [reflexivity|].
    apply Hall. split; [apply Hge; now right|].
    now apply (desc_head w tl).
Qed.

End Descending.

(** Of the header matches that start at one place, the matcher reports
    the longest. *)
Lemma header_longest (s : str) a e tl :
  Re.ends s header_re a = e :: tl ->
  forall e', Re.Match s header_re a e' -> e' <= e.
Proof.
  intros E e' HM. apply ends_complete in HM.
  pose proof (anchored_groups_desc Py.isspace s a) as Hd.
  change (StronglySorted (fun x y => y < x) (Re.ends s header_re a)) in Hd.
  rewrite E in Hd, HM. destruct HM as [<-|HM]; [lia|].
  apply StronglySorted_inv in Hd as [_ Hd].
  rewrite Forall_forall in Hd. apply Hd in HM. lia.
Qed.

Lemma search_header_some content a e :
  Re.search header_re content = Some (a, e) ->
  a = 0 /\ header_end content e /\
  (forall q, header_end content q -> q <= e).
Proof.
  intros H.
  pose proof (search_some _ _ _ _ H) as (HM & _ & Hfirst).
  pose proof (Match_header _ _ _ HM) as (_ & Hend & _).
  assert (a = 0) as ->.
  { destruct a as [|a']; [reflexivity|]. exfalso.
    apply (Hfirst 0 e); [lia|]. now apply header_end_Match. }
  split; [reflexivity|]. split; [assumption|].
  intros q Hq. destruct (search_head _ _ _ _ H) as [tl Htl].
  apply (header_longest _ _ _ _ Htl). now apply header_end_Match.
Qed.

(** X5: the header match always starts at the first character of the
    document and ends at the last offset that is the end of a line,
    comes right after a whitespace character and has a character that is
    not whitespace before it; there is a header exactly when there is
    such an offset, and the header line is the trimmed text of the
    document up to it. *)
Theorem header_match_characterised content :
  (forall a e,
      Re.search header_re content = Some (a, e) <->
      a = 0 /\ header_end content e /\
      (forall q, header_end content q -> q <= e))
  /\ (Re.search header_re content = None <->
      forall q, ~ header_end content q)
  /\ (forall h,
        find_header_line content = Some h ->
        exists e,
          header_end content e /\
          (forall q, header_end content q -> q <= e) /\
          h = Py.strip (firstn e content)).
Proof.
  assert (Hiff : forall a e,
             Re.search header_re content = Some (a, e) <->
             a = 0 /\ header_end content e /\
             (forall q, header_end content q -> q <= e)).
  { intros a e. split; [apply search_header_some|].
    intros (-> & Hend & Hmax).
    pose proof (header_end_Match _ _ Hend) as HM.
    destruct (search_finds content header_re 0 e) as (a' & e' & E & Hle);
      [lia|assumption|].
    pose proof (search_header_some _ _ _ E) as (-> & Hend' & Hmax').
    assert (e' = e) as -> by (apply Nat.le_antisymm; auto).
    assumption. }
  split; [assumption|]. split.
  - split.
    + intros Hnone q Hq.
      apply (search_none _ _ Hnone 0 q); [lia|now apply header_end_Match].
    + intros Hno.
      destruct (Re.search header_re content) as [[a e]|] eqn:E;
        [|reflexivity].
      apply search_header_some in E as (_ & Hend & _).
      now apply Hno in Hend.
  - intros h Hh. unfold find_header_line in Hh.
    destruct (Re.search header_re content) as [[a e]|] eqn:E;
      [|discriminate].
    injection Hh as <-.
    apply search_header_some in E as (-> & Hend & Hmax).
    exists e. split; [assumption|]. split; [assumption|].
    unfold Py.slice. now rewrite Nat.sub_0_r.
Qed.

(** ** How much a middle column can hold *)

Lemma length_slice a b (s : str) : length (Py.slice a b s) <= b - a.
Proof. unfold Py.slice. rewrite length_firstn. lia. Qed.

(** X6: the cell and the name of a span after the first are cut from
    the gap between the previous dash run and this one: they hold at most
    as many characters as the gap is wide, and the cell is the empty
    text whenever the line has only whitespace there. *)
Theorem middle_column_within_gap positions header_line line j :
  (forall v,
      middle_cell positions line j = Some v ->
      length v
      <= fst (span_at positions j) - snd (span_at positions (j - 1)))
  /\ (middle_name header_line positions j = placeholder j \/
      length (middle_name header_line positions j)
      <= fst (span_at positions j) - snd (span_at positions (j - 1)))
  /\ (snd (span_at positions (j - 1)) < length line ->
      Forall (fun c => Py.isspace c = true)
        (Py.slice (snd (span_at positions (j - 1)))
                  (fst (span_at positions j)) line) ->
      middle_cell positions line j = Some []).
Proof.
  split; [|split].
  - intros v Hv. unfold middle_cell in Hv.
    destruct (_ <? _); [|discriminate].
    apply null_if_NULL_some in Hv as [-> _].
    etransitivity; [apply length_strip|].
    etransitivity; [apply length_slice|]. lia.
  - rewrite middle_name_spec. cbv zeta.
    destruct (Py.is_empty _); [now left|right].
    etransitivity; [apply length_strip|apply length_slice].
  - intros Hlt Hall.
    destruct (middle_cell_reads positions line j Hlt) as [[E _]|[_ ->]].
    + rewrite strip_all_space in E by assumption. discriminate.
    + now rewrite strip_all_space.
Qed.

(** ** Where the data section starts *)

Lemma Match_dash_group_extend (s : str) i k :
  Re.Match s dash_group i k -> Re.at_ Py.isspace s k = true ->
  Re.Match s dash_group i (S k).
Proof.
  intros H Hk. apply Match_dash_group in H.
  destruct H as (m & Hm & Hd & Hw).
  unfold dash_group. apply Re.MSeq with (k := m).
  - apply Match_plus_chr_intro; [lia|assumption].
  - apply Match_plus_chr_intro; [lia|].
    intros x Hx. destruct (Nat.eq_dec x k) as [->|]; [assumption|].
    apply Hw. lia.
Qed.

Lemma Match_star_dash_group_extend (s : str) i e :
  Re.Match s (Re.Star dash_group) i e -> i < e ->
  Re.at_ Py.isspace s e = true ->
  Re.Match s (Re.Star dash_group) i (S e).
Proof.
  intros H. remember (Re.Star dash_group) as r eqn:Er.
  induction H; try discriminate; intros Hlt He; [lia|].
  injection Er as ->.
  destruct (Nat.eq_dec k j) as [->|Hne].
  - apply Re.MStarCons with (k := S j); [|lia|constructor].
    now apply Match_dash_group_extend.
  - apply Match_bounds in H1 as Hb.
    apply Re.MStarCons with (k := k); [assumption|assumption|].
    apply IHMatch2; [reflexivity|lia|assumption].
Qed.

Lemma Match_dash_line_extend (s : str) a e :
  Re.Match s dash_line_re a e -> Re.at_ Py.isspace s e = true ->
  Re.Match s dash_line_re a (S e).
Proof.
  intros H He. unfold dash_line_re in *.
  inversion H as [| | | |? ? ? a1 ? Hbol Hrest| | | |]; subst.
  inversion Hrest as [| | | |? ? ? w ? Hsp Hplus| | | |]; subst.
  apply Re.MSeq with (k := a1); [assumption|].
  apply Re.MSeq with (k := w); [assumption|].
  unfold Re.Plus in *.
  inversion Hplus as [| | | |? ? ? k ? Hg Hstar| | | |]; subst.
  pose proof (Match_bounds _ _ _ _ Hstar) as [Hke _].
  destruct (Nat.eq_dec k e) as [->|Hne].
  - apply Re.MSeq with (k := S e); [|constructor].
    now apply Match_dash_group_extend.
  - apply Re.MSeq with (k := k); [assumption|].
    apply Match_star_dash_group_extend; [assumption|lia|assumption].
Qed.

(** X7: the dash-line match takes all the whitespace that follows the
    dash runs, line breaks and the indentation of the next line included: the
    data section never starts with a whitespace character. *)
Theorem data_section_starts_after_whitespace content dash_line d_end :
  find_dash_line content = Some (dash_line, d_end) ->
  Re.at_ Py.isspace content d_end = false
  /\ Py.lstrip (Py.slice_from d_end content) = Py.slice_from d_end content.
Proof.
  unfold find_dash_line.
  destruct (Re.search dash_line_re content) as [[a e]|] eqn:E; [|discriminate].
  intros H. injection H as _ <-.
  assert (Hat : Re.at_ Py.isspace content e = false).
  { destruct (Re.at_ Py.isspace content e) eqn:Hat; [|reflexivity]. exfalso.
    pose proof (search_some _ _ _ _ E) as (HM & _ & _).
    destruct (search_head _ _ _ _ E) as [tl Htl].
    pose proof (dash_line_longest _ _ _ _ Htl (S e)
                  (Match_dash_line_extend _ _ _ HM Hat)).
    lia. }
  split; [assumption|].
  unfold Py.lstrip, Py.slice_from, Re.at_ in *.
  rewrite <- hd_error_skipn in Hat.
  destruct (skipn e content) as [|c t]; [reflexivity|].
  simpl in Hat |- *. now rewrite Hat.
Qed.

Lemma data_section_starts_after_whitespace_witness :
  find_dash_line separator_example
  = Some (Py.replace tab space (Py.slice 7 23 separator_example), 23)
  /\ Re.at_ Py.isspace separator_example 23 = false
  /\ Py.lstrip (Py.slice_from 23 separator_example)
     = Py.slice_from 23 separator_example.
Proof.
  assert (H : find_dash_line separator_example
              = Some (Py.replace tab space
                        (Py.slice 7 23 separator_example), 23))
    by (vm_compute; reflexivity).
  split; [exact H|].
  exact (data_section_starts_after_whitespace separator_example _ 23 H).
Defined.

(** ** The file name test of [main] *)

Local Open Scope char_scope.

Lemma lower_char_dot c : Py.lower_char c = "." -> c = ".".
Proof.
  destruct c as [[] [] [] [] [] [] [] []]; vm_compute; intros H;
    try discriminate H; reflexivity.
Qed.

Lemma lower_char_r c : Py.lower_char c = "r" -> c = "r" \/ c = "R".
Proof.
  destruct c as [[] [] [] [] [] [] [] []]; vm_compute; intros H;
    try discriminate H; auto.
Qed.

Lemma lower_char_p c : Py.lower_char c = "p" -> c = "p" \/ c = "P".
Proof.
  destruct c as [[] [] [] [] [] [] [] []]; vm_compute; intros H;
    try discriminate H; auto.
Qed.

Lemma lower_char_t c : Py.lower_char c = "t" -> c = "t" \/ c = "T".
Proof.
  destruct c as [[] [] [] [] [] [] [] []]; vm_compute; intros H;
    try discriminate H; auto.
Qed.

Lemma skipn_map {A B} (f : A -> B) n l :
  skipn n (map f l) = map f (skipn n l).
Proof.
  revert l. induction n as [|n IH]; intros [|a l]; simpl; auto.
Qed.

(** X8: [main] accepts a path exactly when its last four characters
    are a dot and the letters r, p, t, each in either case; "report.RPT" and
    ".rpt" pass, "report.rpt.txt" and "rpt" do not. *)
Theorem rpt_extension_in_any_case file_path :
  is_rpt_path file_path = true <->
  exists stem r p t,
    file_path = stem ++ ["."; r; p; t] /\
    (r = "r" \/ r = "R") /\ (p = "p" \/ p = "P") /\ (t = "t" \/ t = "T").
Proof.
  unfold is_rpt_path, Py.endswith, Py.lower. rewrite eqb_eq, length_map.
  change (length (txt ".rpt")) with 4.
  change (txt ".rpt") with ["."; "r"; "p"; "t"].
  rewrite skipn_map. split.
  - intros H.
    pose proof (firstn_skipn (length file_path - 4) file_path) as Hsplit.
    destruct (skipn (length file_path - 4) file_path)
      as [|a [|b [|c [|d [|x l]]]]]; try discriminate H.
    simpl in H. injection H as Ha Hb Hc Hd.
    apply lower_char_dot in Ha. subst a.
    exists (firstn (length file_path - 4) file_path), b, c, d.
    split; [now symmetry|].
    auto using lower_char_r, lower_char_p, lower_char_t.
  - intros (stem & r & p & t & -> & Hr & Hp & Ht).
    rewrite length_app. cbn [length].
    replace (length stem + 4 - 4) with (length stem + 0) by lia.
    rewrite skipn_app, skipn_all2 by lia.
    replace (length stem + 0 - length stem) with 0 by lia.
    destruct Hr as [->| ->], Hp as [->| ->], Ht as [->| ->]; reflexivity.
Qed.

Local Close Scope char_scope.
